(** * School-Map-Generator: a shallow embedding of the loader, the controller
      and the map adapter, with the properties of the specification.

    Sources embedded here:
    - [services/googleSheetService.ts]   ([fetchSchoolData], the row mapper)
    - [App.tsx]                          ([waitForLibrary], [loadData],
                                          [handleSearch], [renderContent])
    - [components/MapComponent.tsx]      (the marker and the selection effects)
    - [types.ts], [constants.ts]

    Modelling conventions.
    - A JavaScript string is a [string] whose characters are code units
      below 256 (Latin-1).  White space, [trim] and [toLowerCase] follow
      ECMAScript on that range.
    - A JavaScript number is a [number]: NaN, the two infinities, or a
      finite signed decimal kept exactly (rounding to the nearest binary64
      is not modelled; overflow to Infinity is).
    - An object used as a dictionary (a parsed CSV row, the marker
      registry) is a [gmap]; a missing key reads as [None] ([undefined]).
    - [console.warn] and [alert] are modelled as lists of emitted lines. *)

From Stdlib Require Import ZArith NArith String Ascii List Bool Lia.
From Stdlib Require Import DecimalString.
From Stdlib Require DecimalNat.
From stdpp Require Import gmap strings list fin_maps.

Open Scope string_scope.

(* ===================================================================== *)
(** ** JavaScript strings                                                 *)
(* ===================================================================== *)

Module JsString.

(** WhiteSpace and LineTerminator code units below 256:
    TAB, LF, VT, FF, CR, SP, NBSP. *)
Definition isWhiteSpace (c : ascii) : bool :=
  let n := N_of_ascii c in
  ((9 <=? n) && (n <=? 13) || (n =? 32) || (n =? 160))%N.

(** [String.prototype.trimStart] *)
Fixpoint trimStart (s : string) : string :=
  match s with
  | EmptyString => EmptyString
  | String c s' => if isWhiteSpace c then trimStart s' else s
  end.

(** [String.prototype.trimEnd] *)
Fixpoint trimEnd (s : string) : string :=
  match s with
  | EmptyString => EmptyString
  | String c s' =>
      match trimEnd s' with
      | EmptyString => if isWhiteSpace c then EmptyString else String c EmptyString
      | t => String c t
      end
  end.

(** [String.prototype.trim] *)
Definition trim (s : string) : string := trimEnd (trimStart s).

(** Lower-casing of one code unit: A-Z, and the Latin-1 capitals
    U+00C0..U+00DE except the multiplication sign U+00D7. *)
Definition lowerChar (c : ascii) : ascii :=
  let n := N_of_ascii c in
  if ((65 <=? n) && (n <=? 90))%N then ascii_of_N (n + 32)
  else if ((192 <=? n) && (n <=? 222) && negb (n =? 215))%N then ascii_of_N (n + 32)
  else c.

(** [String.prototype.toLowerCase] *)
Fixpoint toLowerCase (s : string) : string :=
  match s with
  | EmptyString => EmptyString
  | String c s' => String (lowerChar c) (toLowerCase s')
  end.

(** [s.startsWith(t)] *)
Fixpoint startsWith (s t : string) : bool :=
  match t, s with
  | EmptyString, _ => true
  | String _ _, EmptyString => false
  | String b t', String a s' => if Ascii.eqb a b then startsWith s' t' else false
  end.

(** [s.includes(t)] *)
Fixpoint includes (s t : string) : bool :=
  if startsWith s t then true
  else match s with
       | EmptyString => false
       | String _ s' => includes s' t
       end.

(** Truthiness of a string value: only the empty string is falsy. *)
Definition truthy (s : string) : bool :=
  match s with EmptyString => false | _ => true end.

(** [v || d] for an optional string [v]: [undefined] and [''] give [d]. *)
Definition orElse (v : option string) (d : string) : string :=
  match v with
  | Some s => if truthy s then s else d
  | None => d
  end.

(** [parts.join(sep)] *)
Fixpoint join (sep : string) (parts : list string) : string :=
  match parts with
  | [] => EmptyString
  | [p] => p
  | p :: rest => p ++ sep ++ join sep rest
  end.

(** [ToString] of an optional string value. *)
Definition ToString (v : option string) : string :=
  match v with Some s => s | None => "undefined" end.

(** Decimal rendering of a natural number (template-literal interpolation
    of an array index). *)
Definition ofNat (n : nat) : string := NilZero.string_of_uint (Nat.to_uint n).

(** Every code unit is white space (so [trim] leaves nothing). *)
Fixpoint blank (s : string) : bool :=
  match s with
  | EmptyString => true
  | String c s' => isWhiteSpace c && blank s'
  end.

(** [t] occurs in [s] at some position. *)
Definition substringOf (t s : string) : Prop :=
  exists before after, s = before ++ t ++ after.

(** Number of occurrences of a code unit. *)
Fixpoint countChar (c : ascii) (s : string) : nat :=
  match s with
  | EmptyString => 0
  | String a s' => (if Ascii.eqb a c then 1 else 0) + countChar c s'
  end.

End JsString.

(* ===================================================================== *)
(** ** JavaScript numbers and [parseFloat]                                *)
(* ===================================================================== *)

Module JsNumber.

(** A number value.  [Finite neg m e] stands for (+/-) m * 10^e; the values
    built by [parseFloat] are canonical: [m] has no trailing zero digit,
    and zero is [Finite _ 0 0]. *)
Inductive number : Type :=
| NaN
| Infinity (neg : bool)
| Finite (neg : bool) (m : N) (e : Z).

(** Global [isNaN] on a number. *)
Definition isNaN (x : number) : bool :=
  match x with NaN => true | _ => false end.

(** [Number.isFinite] *)
Definition isFinite (x : number) : bool :=
  match x with Finite _ _ _ => true | _ => false end.

Definition digitValue (c : ascii) : option N :=
  let n := N_of_ascii c in
  if ((48 <=? n) && (n <=? 57))%N then Some (n - 48)%N else None.

(** The longest run of DecimalDigits at the head of [s], and the rest. *)
Fixpoint takeDigits (s : string) : list N * string :=
  match s with
  | EmptyString => ([], EmptyString)
  | String c s' =>
      match digitValue c with
      | Some d => let '(ds, r) := takeDigits s' in (d :: ds, r)
      | None => ([], s)
      end
  end.

Definition digitsToN (ds : list N) : N :=
  fold_left (fun acc d => (10 * acc + d)%N) ds 0%N.

(** Drops the zero digits at the end, counting them. *)
Fixpoint stripTrailingZeros (ds : list N) : list N * nat :=
  match ds with
  | [] => ([], 0)
  | d :: r =>
      let '(r', k) := stripTrailingZeros r in
      match r' with
      | [] => if (d =? 0)%N then ([], S k) else ([d], k)
      | _ => (d :: r', k)
      end
  end.

(** Decimal values at or above 2^1024 - 2^970 round to Infinity
    (round to nearest, ties to even, binary64). *)
Definition overflowThreshold : Z := 2 ^ 1024 - 2 ^ 970.

Definition overflows (m : N) (e : Z) : bool :=
  if (0 <=? e)%Z then (overflowThreshold <=? Z.of_N m * 10 ^ e)%Z
  else (overflowThreshold * 10 ^ (- e) <=? Z.of_N m)%Z.

(** The value of  di . df e ex  (integer digits, fraction digits, exponent). *)
Definition decimalValue (neg : bool) (di df : list N) (ex : Z) : number :=
  let '(ds, k) := stripTrailingZeros (di ++ df) in
  let m := digitsToN ds in
  if (m =? 0)%N then Finite neg 0 0
  else
    let e := (ex - Z.of_nat (length df) + Z.of_nat k)%Z in
    if overflows m e then Infinity neg else Finite neg m e.

(** The value of an ExponentPart at the head of [s]; 0 when there is none
    (an [e] not followed by digits is not part of the literal). *)
Definition parseExponent (s : string) : Z :=
  match s with
  | EmptyString => 0%Z
  | String c r =>
      if (Ascii.eqb c "e" || Ascii.eqb c "E")%char then
        let '(neg, r') :=
          match r with
          | String "+"%char r' => (false, r')
          | String "-"%char r' => (true, r')
          | _ => (false, r)
          end in
        match takeDigits r' with
        | ([], _) => 0%Z
        | (ds, _) => let v := Z.of_N (digitsToN ds) in if neg then (- v)%Z else v
        end
      else 0%Z
  end.

(** The longest prefix of [s] that is a StrUnsignedDecimalLiteral. *)
Definition parseUnsigned (neg : bool) (s : string) : number :=
  if JsString.startsWith s "Infinity" then Infinity neg
  else
    let '(di, r1) := takeDigits s in
    match r1 with
    | String "."%char r2 =>
        let '(df, r3) := takeDigits r2 in
        match di, df with
        | [], [] => NaN
        | _, _ => decimalValue neg di df (parseExponent r3)
        end
    | _ =>
        match di with
        | [] => NaN
        | _ => decimalValue neg di [] (parseExponent r1)
        end
    end.

(** Global [parseFloat] applied to a property read (a string or
    [undefined]). *)
Definition parseFloat (v : option string) : number :=
  match JsString.trimStart (JsString.ToString v) with
  | String "+"%char r => parseUnsigned false r
  | String "-"%char r => parseUnsigned true r
  | s => parseUnsigned false s
  end.

Definition digitsOfN (m : N) : string := NilZero.string_of_uint (N.to_uint m).

Fixpoint zeros (n : nat) : string :=
  match n with O => EmptyString | S n' => String "0"%char (zeros n') end.

(** [Number::toString] in radix 10 (template-literal interpolation). *)
Definition toString (x : number) : string :=
  match x with
  | NaN => "NaN"
  | Infinity neg => if neg then "-Infinity" else "Infinity"
  | Finite neg m e =>
      if (m =? 0)%N then "0"
      else
        let ds := digitsOfN m in
        let k := Z.of_nat (String.length ds) in
        let n := (k + e)%Z in
        let body :=
          if ((k <=? n) && (n <=? 21))%Z then ds ++ zeros (Z.to_nat (n - k))
          else if ((0 <? n) && (n <=? 21))%Z then
            substring 0 (Z.to_nat n) ds ++ "." ++
            substring (Z.to_nat n) (Z.to_nat (k - n)) ds
          else if ((-6 <? n) && (n <=? 0))%Z then
            "0." ++ zeros (Z.to_nat (- n)) ++ ds
          else
            let ex := (n - 1)%Z in
            let estr := (if (0 <=? ex)%Z then "+" else "-") ++
                        digitsOfN (Z.to_N (Z.abs ex)) in
            match ds with
            | EmptyString => EmptyString
            | String d EmptyString => String d ("e" ++ estr)
            | String d rest => String d ("." ++ rest ++ "e" ++ estr)
            end in
        if neg then "-" ++ body else body
  end.

End JsNumber.

Import JsString JsNumber.

(** The double-quote character, for the messages that quote a value. *)
Definition dq : string := String (ascii_of_nat 34) EmptyString.

(* ===================================================================== *)
(** ** Record model ([types.ts]) and constants ([constants.ts])           *)
(* ===================================================================== *)

Inductive SchoolStatus : Type := Defined | Pending | NoService.

(** The string value of each enumeration member. *)
Definition statusValue (st : SchoolStatus) : string :=
  match st with
  | Defined => "Defined"
  | Pending => "Pending"
  | NoService => "No Service"
  end.

Record School : Type := mkSchool {
  id : string;
  name : string;
  address : string;
  latitude : number;
  longitude : number;
  status : SchoolStatus;
  administrativeDesignation : string;
  district : string
}.

Module CSV_COLUMN_NAMES.
Definition NAME := "School Name".
Definition ADDRESS := "Street Address".
Definition CITY := "City".
Definition STATE := "State".
Definition ZIP_CODE := "Zip Code".
Definition LATITUDE := "Latitude".
Definition LONGITUDE := "Longitude".
Definition STATUS := "Status".
Definition ADMINISTRATIVE_DESIGNATION := "Administrative Designation".
Definition DISTRICT := "District".
End CSV_COLUMN_NAMES.

Definition MARKER_ICONS (st : SchoolStatus) : string :=
  match st with
  | Defined => "http://maps.google.com/mapfiles/ms/icons/green-dot.png"
  | Pending => "http://maps.google.com/mapfiles/ms/icons/yellow-dot.png"
  | NoService => "http://maps.google.com/mapfiles/ms/icons/red-dot.png"
  end.

(** [MAP_CENTER = { lat: 40.7128, lng: -74.0060 }], [MAP_ZOOM = 11] *)
Definition MAP_CENTER : number * number :=
  (Finite false 407128 (-4), Finite true 74006 (-3)).
Definition MAP_ZOOM : nat := 11.

(* ===================================================================== *)
(** ** Record mapper ([fetchSchoolData])                                  *)
(* ===================================================================== *)

(** A row as PapaParse delivers it with [header: true]: an object from
    header names to field strings; a field that the line does not have is
    absent. *)
Abbreviation Row := (gmap string string).

Module Mapper.
Import CSV_COLUMN_NAMES.

(** The [switch (sheetStatus)]; [None] is the [default] branch. *)
Definition matchStatus (sheetStatus : string) : option SchoolStatus :=
  if String.eqb sheetStatus "Defined" then Some Defined
  else if String.eqb sheetStatus "Pending" then Some Pending
  else if String.eqb sheetStatus "No Service" then Some NoService
  else None.

(** [[street, city, state].filter(Boolean).join(', ') + (zip ? ` ${zip}` : '')] *)
Definition fullAddress (street city state zip : string) : string :=
  join ", " (List.filter truthy [street; city; state]) ++
  (if truthy zip then " " ++ zip else EmptyString).

Definition warnLatLng (index : nat) : string :=
  "Skipping row " ++ ofNat (index + 2) ++ " due to invalid latitude/longitude.".

Definition warnStatus (index : nat) (sheetStatus : string) : string :=
  "Skipping row " ++ ofNat (index + 2) ++ " due to unrecognized status: " ++
  dq ++ sheetStatus ++ dq.

(** The callback of [results.data.map]: the lines passed to
    [console.warn], and the entity or [null]. *)
Definition mapRow (row : Row) (index : nat) : list string * option School :=
  let lat := parseFloat (row !! LATITUDE) in
  let lng := parseFloat (row !! LONGITUDE) in
  if isNaN lat || isNaN lng then ([warnLatLng index], None)
  else
    let sheetStatus := trim (orElse (row !! STATUS) EmptyString) in
    match matchStatus sheetStatus with
    | None => ([warnStatus index sheetStatus], None)
    | Some status =>
        let street := orElse (row !! ADDRESS) EmptyString in
        let city := orElse (row !! CITY) EmptyString in
        let state := orElse (row !! STATE) EmptyString in
        let zip := orElse (row !! ZIP_CODE) EmptyString in
        let fullAddress := fullAddress street city state zip in
        ([], Some {|
          id := toString lat ++ "-" ++ toString lng ++ "-" ++ ofNat index;
          name := orElse (row !! NAME) "Unnamed School";
          address := if truthy fullAddress then fullAddress else "No Address Provided";
          latitude := lat;
          longitude := lng;
          status := status;
          administrativeDesignation :=
            orElse (row !! ADMINISTRATIVE_DESIGNATION) "N/A";
          district := orElse (row !! DISTRICT) "N/A"
        |})
    end.

(** [results.data.map(...)], each row with its index. *)
Definition mapRows (data : list Row) : list (list string * option School) :=
  imap (fun index row => mapRow row index) data.

(** The [complete] callback: the warnings in row order, and
    [.filter(item => item !== null)]. *)
Definition complete (data : list Row) : list string * list School :=
  let mapped := mapRows data in
  (concat (fst <$> mapped), omap snd mapped).

(** What [Papa.parse] reports: [complete(results)] or [error(error)]. *)
Inductive PapaOutcome : Type :=
| PapaComplete (data : list Row)
| PapaError (message : string).

(** How the promise of [fetchSchoolData] settles. *)
Inductive Settled (A : Type) : Type :=
| Resolved (value : A)
| Rejected (message : string).
Arguments Resolved {A} value.
Arguments Rejected {A} message.

(** [fetchSchoolData(url)], given what the parser reports for [url]:
    the console lines and the settled promise.  The mapping callback
    cannot throw on rows of strings, so the [catch] is not reached. *)
Definition fetchSchoolData (papa : PapaOutcome) : list string * Settled (list School) :=
  match papa with
  | PapaComplete data => let '(warnings, parsedData) := complete data in
                         (warnings, Resolved parsedData)
  | PapaError message =>
      ([], Rejected ("Could not fetch or parse CSV file from URL. " ++ message))
  end.

(** *** Names for the conditions tested by [mapRow] *)

(** [isNaN(lat) || isNaN(lng)] *)
Definition invalidLatLng (row : Row) : bool :=
  isNaN (parseFloat (row !! LATITUDE)) || isNaN (parseFloat (row !! LONGITUDE)).

Definition sheetStatusOf (row : Row) : string :=
  trim (orElse (row !! STATUS) EmptyString).

Definition unrecognizedStatus (row : Row) : bool :=
  negb (bool_decide (sheetStatusOf row ∈ ["Defined"; "Pending"; "No Service"])).

Definition excluded (row : Row) : bool :=
  invalidLatLng row || unrecognizedStatus row.

Definition streetOf (row : Row) : string := orElse (row !! ADDRESS) EmptyString.
Definition cityOf (row : Row) : string := orElse (row !! CITY) EmptyString.
Definition stateOf (row : Row) : string := orElse (row !! STATE) EmptyString.
Definition zipOf (row : Row) : string := orElse (row !! ZIP_CODE) EmptyString.

End Mapper.

(* ===================================================================== *)
(** ** Application controller ([App.tsx])                                 *)
(* ===================================================================== *)

Module App.
Import Mapper.

(** The three remediation fragments that [loadData] can attach. *)
Inductive ErrorDetails : Type :=
| MapsApiKeyHint      (* "missing or invalid API key ... index.html" *)
| PapaParseHint       (* "PapaParse library ... could not be loaded" *)
| SheetUrlHint.       (* "check the GOOGLE_SHEET_CSV_URL ..." *)

Record AppError : Type := mkAppError {
  message : string;
  details : ErrorDetails
}.

(** *** [waitForLibrary] *)

Definition maxAttempts : nat := 50.

Definition libraryError (name : string) : string :=
  "The '" ++ name ++
  "' library failed to load from the CDN, please check your network connection.".

(** The promise between two firings of the interval: still polling with
    [attempts] failures counted, or settled (interval cleared). *)
Inductive Wait : Type :=
| Waiting (attempts : nat)
| Done (result : Settled unit).

(** One firing of the interval callback; [isDefined] is
    [typeof window[name] !== 'undefined'] at that moment. *)
Definition tick (name : string) (isDefined : bool) (attempts : nat) : Wait :=
  if isDefined then Done (Resolved tt)
  else
    let attempts := S attempts in
    if (maxAttempts <? attempts)%nat then Done (Rejected (libraryError name))
    else Waiting attempts.

(** The interval armed at tick [t] (one tick is [checkIntervalMs]) fires at
    ticks [t+1], [t+2], ...; [avail k] tells whether the global is defined
    at tick [k].  The result is how the promise settles and at which tick,
    or [None] while it is still pending after [fuel] firings. *)
Fixpoint poll (name : string) (avail : nat -> bool)
         (fuel t attempts : nat) : option (Settled unit * nat) :=
  match fuel with
  | O => None
  | S fuel' =>
      match tick name (avail (S t)) attempts with
      | Done result => Some (result, S t)
      | Waiting attempts' => poll name avail fuel' (S t) attempts'
      end
  end.

Definition waitForLibrary (name : string) (avail : nat -> bool)
           (fuel t : nat) : option (Settled unit * nat) :=
  poll name avail fuel t 0.

(** *** Component state *)

Record AppState : Type := mkAppState {
  schools : list School;
  isLoading : bool;
  error : option AppError;
  searchTerm : string;
  selectedSchool : option School;
  lastUpdated : option nat
}.

(** The [useState] initial values. *)
Definition initialState : AppState :=
  {| schools := []; isLoading := true; error := None;
     searchTerm := EmptyString; selectedSchool := None; lastUpdated := None |}.

Definition setSchools (v : list School) (st : AppState) : AppState :=
  {| schools := v; isLoading := isLoading st; error := error st;
     searchTerm := searchTerm st; selectedSchool := selectedSchool st;
     lastUpdated := lastUpdated st |}.
Definition setIsLoading (v : bool) (st : AppState) : AppState :=
  {| schools := schools st; isLoading := v; error := error st;
     searchTerm := searchTerm st; selectedSchool := selectedSchool st;
     lastUpdated := lastUpdated st |}.
Definition setError (v : option AppError) (st : AppState) : AppState :=
  {| schools := schools st; isLoading := isLoading st; error := v;
     searchTerm := searchTerm st; selectedSchool := selectedSchool st;
     lastUpdated := lastUpdated st |}.
Definition setSearchTerm (v : string) (st : AppState) : AppState :=
  {| schools := schools st; isLoading := isLoading st; error := error st;
     searchTerm := v; selectedSchool := selectedSchool st;
     lastUpdated := lastUpdated st |}.
Definition setSelectedSchool (v : option School) (st : AppState) : AppState :=
  {| schools := schools st; isLoading := isLoading st; error := error st;
     searchTerm := searchTerm st; selectedSchool := v;
     lastUpdated := lastUpdated st |}.
Definition setLastUpdated (v : option nat) (st : AppState) : AppState :=
  {| schools := schools st; isLoading := isLoading st; error := error st;
     searchTerm := searchTerm st; selectedSchool := selectedSchool st;
     lastUpdated := v |}.

(** *** [loadData] *)

(** What the page offers to one load: when each global becomes defined,
    whether [google.maps] is there, what the parser reports, and the
    clock read by [new Date()]. *)
Record Environment : Type := mkEnvironment {
  googleDefined : nat -> bool;
  mapsDefined : nat -> bool;
  papaDefined : nat -> bool;
  papa : PapaOutcome;
  now : nat
}.

(** The statements before the [try]. *)
Definition loadData_begin (st : AppState) : AppState :=
  setError None (setIsLoading true st).

(** The keyword classification of the [catch] block. *)
Definition classify (errorMessage : string) : ErrorDetails :=
  if includes errorMessage "google" || includes errorMessage "Google"
  then MapsApiKeyHint
  else if includes errorMessage "Papa" then PapaParseHint
  else SheetUrlHint.

Definition mapsMissing : string :=
  "Google Maps API script loaded, but maps object is not available.".

(** The awaits of the [try] block: the outcome (the data, or the message
    of the error thrown), the tick at which the polling ended, and the
    console lines; [None] while a wait is still pending. *)
Definition loadData_try (env : Environment) (fuel : nat)
  : option (Settled (list School) * nat * list string) :=
  match waitForLibrary "google" (googleDefined env) fuel 0 with
  | None => None
  | Some (Rejected msg, t) => Some (Rejected msg, t, [])
  | Some (Resolved _, t) =>
      if negb (mapsDefined env t) then Some (Rejected mapsMissing, t, [])
      else
        match waitForLibrary "Papa" (papaDefined env) fuel t with
        | None => None
        | Some (Rejected msg, t') => Some (Rejected msg, t', [])
        | Some (Resolved _, t') =>
            let '(warnings, result) := fetchSchoolData (papa env) in
            Some (result, t', warnings)
        end
  end.

(** The rest of [loadData] once the [try] block has an outcome: the
    success path, or [catch]; then [finally]. *)
Definition loadData_end (outcome : Settled (list School)) (now : nat)
           (st : AppState) : AppState :=
  match outcome with
  | Resolved data =>
      setIsLoading false (setLastUpdated (Some now) (setSchools data st))
  | Rejected errorMessage =>
      setIsLoading false
        (setLastUpdated None
           (setError (Some {| message := errorMessage;
                              details := classify errorMessage |}) st))
  end.

(** One whole load with nothing else happening in between. *)
Definition loadData (env : Environment) (fuel : nat) (st : AppState)
  : option (AppState * nat) :=
  match loadData_try env fuel with
  | None => None
  | Some (outcome, t, _) =>
      Some (loadData_end outcome (now env) (loadData_begin st), t)
  end.

(** *** [handleSearch], [handleSchoolSelect] *)

Definition notFound (term : string) : string :=
  "No school found matching " ++ dq ++ term ++ dq ++ ".".

(** The new state and the [alert] lines. *)
Definition handleSearch (st : AppState) : AppState * list string :=
  if negb (truthy (trim (searchTerm st))) then (setSelectedSchool None st, [])
  else
    let lowerCaseSearchTerm := toLowerCase (searchTerm st) in
    let foundSchool :=
      List.find (fun school =>
                   includes (toLowerCase (name school)) lowerCaseSearchTerm)
                (schools st) in
    match foundSchool with
    | Some found => (setSelectedSchool (Some found) st, [])
    | None => (setSelectedSchool None st, [notFound (searchTerm st)])
    end.

(** The name of [school] contains [term], letter case ignored. *)
Definition nameContains (term : string) (school : School) : Prop :=
  substringOf (toLowerCase term) (toLowerCase (name school)).

Definition handleSchoolSelect (school : option School) (st : AppState) : AppState :=
  setSelectedSchool school st.

(** *** Rendering *)

Inductive Content : Type :=
| LoadingSpinner
| ErrorDisplay (message : string) (details : ErrorDetails)
| MapComponent (schools : list School) (selectedSchool : option School).

Definition renderContent (st : AppState) : Content :=
  if isLoading st && (length (schools st) =? 0)%nat then LoadingSpinner
  else
    match error st with
    | Some e => ErrorDisplay (message e) (details e)
    | None => MapComponent (schools st) (selectedSchool st)
    end.

(** [{!isLoading && !error && ( search form, refresh button )}] *)
Definition controlsShown (st : AppState) : bool :=
  negb (isLoading st) && negb (bool_decide (is_Some (error st))).

(** The refresh button can be pressed: shown, and not [disabled={isLoading}]. *)
Definition refreshEnabled (st : AppState) : bool :=
  controlsShown st && negb (isLoading st).

(** *** Load cycles in flight

    [loadData] suspends at its awaits, so other handlers and other load
    cycles can run in between.  A controller is the component state plus
    the load cycles that have begun and not yet ended, named by the order
    in which they began. *)

Record Controller : Type := mkController {
  app : AppState;
  inFlight : list nat;
  begun : nat;
  alerts : list string
}.

Inductive Event : Type :=
| BeginLoad                                            (* loadData() is called *)
| EndLoad (cycle : nat) (outcome : Settled (list School)) (now : nat)
| Typed (text : string)                                (* onChange of the input *)
| SubmitSearch                                         (* onSubmit of the form *)
| Selected (school : School).                          (* onSchoolSelect *)

Definition handle (ev : Event) (c : Controller) : Controller :=
  match ev with
  | BeginLoad =>
      {| app := loadData_begin (app c); inFlight := inFlight c ++ [begun c];
         begun := S (begun c); alerts := alerts c |}
  | EndLoad cycle outcome now =>
      if bool_decide (cycle ∈ inFlight c) then
        {| app := loadData_end outcome now (app c);
           inFlight := List.filter (fun k => negb (k =? cycle)%nat) (inFlight c);
           begun := begun c; alerts := alerts c |}
      else c
  | Typed text =>
      {| app := setSearchTerm text (app c); inFlight := inFlight c;
         begun := begun c; alerts := alerts c |}
  | SubmitSearch =>
      let '(st, lines) := handleSearch (app c) in
      {| app := st; inFlight := inFlight c; begun := begun c;
         alerts := alerts c ++ lines |}
  | Selected school =>
      {| app := handleSchoolSelect (Some school) (app c); inFlight := inFlight c;
         begun := begun c; alerts := alerts c |}
  end.

Definition run (evs : list Event) (c : Controller) : Controller :=
  foldl (fun c ev => handle ev c) c evs.

(** The component right after mounting: the [useEffect] has called
    [loadData] once. *)
Definition mounted : Controller :=
  handle BeginLoad
    {| app := initialState; inFlight := []; begun := 0; alerts := [] |}.

(** What the page lets happen next: a load in flight ends; the user
    presses refresh, types or searches while the controls are shown; a
    marker is clicked while the map is rendered. *)
Inductive offered (c : Controller) : Event -> Prop :=
| offered_end cycle outcome now :
    cycle ∈ inFlight c -> offered c (EndLoad cycle outcome now)
| offered_refresh :
    refreshEnabled (app c) = true -> offered c BeginLoad
| offered_typed text :
    controlsShown (app c) = true -> offered c (Typed text)
| offered_search :
    controlsShown (app c) = true -> offered c SubmitSearch
| offered_selected school sel :
    renderContent (app c) = MapComponent (schools (app c)) sel ->
    school ∈ schools (app c) ->
    offered c (Selected school).

(** The controllers reachable from mounting through offered events. *)
Inductive reachable : Controller -> Prop :=
| reachable_mounted : reachable mounted
| reachable_step c ev : reachable c -> offered c ev -> reachable (handle ev c).


End App.

(* ===================================================================== *)
(** ** Map adapter ([components/MapComponent.tsx])                        *)
(* ===================================================================== *)

Module MapAdapter.

(** The values interpolated into [contentString]; the markup around them
    is fixed. *)
Record PopupContent : Type := mkPopupContent {
  heading : string;
  designationLine : string;
  districtLine : string;
  addressLine : string;
  statusLine : string;
  directionsHref : string
}.

Definition directionsUrl (school : School) : string :=
  "https://www.google.com/maps/dir/?api=1&destination=" ++
  toString (latitude school) ++ "," ++ toString (longitude school).

Definition contentString (school : School) : PopupContent :=
  {| heading := name school;
     designationLine := administrativeDesignation school;
     districtLine := district school;
     addressLine := address school;
     statusLine := statusValue (status school);
     directionsHref := directionsUrl school |}.

(** A [google.maps.Marker] object.  [onMap] is false after
    [setMap(null)].  Both listeners close over the same [school] and
    [contentString].  The drop animation is not represented. *)
Record Marker : Type := mkMarker {
  position : number * number;
  onMap : bool;
  title : string;
  iconUrl : string;
  listenerSchool : School;
  listenerContent : PopupContent
}.

Record GoogleMap : Type := mkGoogleMap {
  center : number * number;
  zoom : nat
}.

(** The single [google.maps.InfoWindow]: its content, and the marker it
    is open on. *)
Record InfoWindow : Type := mkInfoWindow {
  content : option PopupContent;
  anchor : option nat
}.

(** The adapter: the [map] state, the two refs, every marker object
    created so far (a marker is named by its position in [markers]), and
    what [onSchoolSelect] last passed to the controller. *)
Record Adapter : Type := mkAdapter {
  map : option GoogleMap;
  infoWindowRef : option InfoWindow;
  markers : list Marker;
  markersRef : gmap string nat;
  reported : option School
}.

Definition unmounted : Adapter :=
  {| map := None; infoWindowRef := None; markers := [];
     markersRef := ∅; reported := None |}.

(** First effect: one-time construction of the map and the info window
    ([mapRef.current] is the mounted surface when effects run). *)
Definition initEffect (a : Adapter) : Adapter :=
  match map a with
  | None =>
      {| map := Some {| center := MAP_CENTER; zoom := MAP_ZOOM |};
         infoWindowRef := Some {| content := None; anchor := None |};
         markers := markers a; markersRef := markersRef a;
         reported := reported a |}
  | Some _ => a
  end.

(** [marker.setMap(null)] *)
Definition setMapNull (m : Marker) : Marker :=
  {| position := position m; onMap := false; title := title m;
     iconUrl := iconUrl m; listenerSchool := listenerSchool m;
     listenerContent := listenerContent m |}.

(** [markersRef.current.forEach(marker => marker.setMap(null))] *)
Definition detachAll (registry : gmap string nat) (objs : list Marker) : list Marker :=
  map_fold (fun _ h objs => alter setMapNull h objs) objs registry.

(** [new google.maps.Marker({...})] with its two listeners. *)
Definition newMarker (school : School) : Marker :=
  {| position := (latitude school, longitude school);
     onMap := true;
     title := name school;
     iconUrl := MARKER_ICONS (status school);
     listenerSchool := school;
     listenerContent := contentString school |}.

(** The body of [schools.forEach]: create the marker, then
    [markersRef.current.set(school.id, marker)]. *)
Definition addMarker (acc : list Marker * gmap string nat) (school : School)
  : list Marker * gmap string nat :=
  let '(objs, registry) := acc in
  ((objs ++ [newMarker school])%list, <[id school := length objs]> registry).

(** Second effect: runs when [map], [schools] or [onSchoolSelect] change. *)
Definition markersEffect (schools : list School) (a : Adapter) : Adapter :=
  match map a, schools with
  | Some _, _ :: _ =>
      let cleared := detachAll (markersRef a) (markers a) in
      let '(objs, registry) := foldl addMarker (cleared, ∅) schools in
      {| map := map a; infoWindowRef := infoWindowRef a;
         markers := objs; markersRef := registry; reported := reported a |}
  | _, _ => a
  end.

(** [infoWindow.setContent(contentString); infoWindow.open(map, marker)] *)
Definition openOn (h : nat) (c : PopupContent) (w : InfoWindow) : InfoWindow :=
  {| content := Some c; anchor := Some h |}.

(** The [mouseover] listener of marker [h]. *)
Definition mouseover (h : nat) (a : Adapter) : Adapter :=
  match markers a !! h with
  | None => a
  | Some m =>
      {| map := map a;
         infoWindowRef := openOn h (listenerContent m) <$> infoWindowRef a;
         markers := markers a; markersRef := markersRef a;
         reported := reported a |}
  end.

(** The [click] listener of marker [h]. *)
Definition click (h : nat) (a : Adapter) : Adapter :=
  match markers a !! h with
  | None => a
  | Some m =>
      {| map := map a;
         infoWindowRef := openOn h (listenerContent m) <$> infoWindowRef a;
         markers := markers a; markersRef := markersRef a;
         reported := Some (listenerSchool m) |}
  end.

(** [map.panTo(p)] and [map.setZoom(z)] *)
Definition panTo (p : number * number) (a : Adapter) : Adapter :=
  {| map := (fun g => {| center := p; zoom := zoom g |}) <$> map a;
     infoWindowRef := infoWindowRef a; markers := markers a;
     markersRef := markersRef a; reported := reported a |}.
Definition setZoom (z : nat) (a : Adapter) : Adapter :=
  {| map := (fun g => {| center := center g; zoom := z |}) <$> map a;
     infoWindowRef := infoWindowRef a; markers := markers a;
     markersRef := markersRef a; reported := reported a |}.

(** Third effect: runs when [map] or [selectedSchool] change. *)
Definition selectionEffect (selectedSchool : option School) (a : Adapter) : Adapter :=
  match map a, selectedSchool with
  | Some _, Some school =>
      match markersRef a !! id school with
      | Some h =>
          click h (setZoom 15 (panTo (latitude school, longitude school) a))
      | None => a
      end
  | _, _ => a
  end.

(** Every registered marker names an existing marker object. *)
Definition registryValid (a : Adapter) : Prop :=
  forall k h, markersRef a !! k = Some h -> h < length (markers a).

End MapAdapter.

(* ===================================================================== *)
(** ** Sample data                                                        *)
(* ===================================================================== *)

Module Samples.
Import CSV_COLUMN_NAMES.

Definition brooklyn : Row :=
  {[ NAME := "Lincoln High School"; ADDRESS := "123 Main St"; CITY := "Brooklyn";
     STATE := "NY"; ZIP_CODE := "11201"; LATITUDE := "40.6782";
     LONGITUDE := "-73.9442"; STATUS := " Defined " ]}.

(** No city, no name. *)
Definition noCity : Row :=
  {[ ADDRESS := "9 Elm Rd"; STATE := "NY"; ZIP_CODE := "10001";
     LATITUDE := "40.75"; LONGITUDE := "-73.99"; STATUS := "Pending" ]}.

(** Only a zip code. *)
Definition zipOnly : Row :=
  {[ NAME := "Zip School"; ZIP_CODE := "10451"; LATITUDE := "40.82";
     LONGITUDE := "-73.92"; STATUS := "No Service" ]}.

(** No address column filled at all. *)
Definition noAddress : Row :=
  {[ NAME := "Nowhere School"; LATITUDE := "40.1"; LONGITUDE := "-73.1";
     STATUS := "Defined" ]}.

Definition badLatitude : Row :=
  {[ NAME := "Bad Latitude"; LATITUDE := "north"; LONGITUDE := "-73.9";
     STATUS := "Defined" ]}.

Definition missingLongitude : Row :=
  {[ NAME := "No Longitude"; LATITUDE := "40.7"; STATUS := "Defined" ]}.

Definition badStatus : Row :=
  {[ NAME := "Bad Status"; LATITUDE := "40.7"; LONGITUDE := "-73.9";
     STATUS := "defined" ]}.

(** A latitude cell that reads Infinity. *)
Definition infiniteLatitude : Row :=
  {[ NAME := "Far North"; LATITUDE := "Infinity"; LONGITUDE := "-73.9";
     STATUS := "Defined" ]}.

Definition sheet : list Row :=
  [brooklyn; badLatitude; noCity; badStatus; missingLongitude; zipOnly; noAddress].

Definition lincoln : School :=
  {| id := "40.6782--73.9442-0"; name := "Lincoln High School";
     address := "123 Main St, Brooklyn, NY 11201";
     latitude := Finite false 406782 (-4); longitude := Finite true 739442 (-4);
     status := Defined; administrativeDesignation := "N/A"; district := "13" |}.

(** What the mapper builds from [brooklyn] at index 0. *)
Definition lincoln13 : School :=
  {| id := "40.6782--73.9442-0"; name := "Lincoln High School";
     address := "123 Main St, Brooklyn, NY 11201";
     latitude := Finite false 406782 (-4); longitude := Finite true 739442 (-4);
     status := Defined; administrativeDesignation := "N/A"; district := "N/A" |}.

Definition roosevelt : School :=
  {| id := "40.75--73.99-1"; name := "Roosevelt Academy";
     address := "9 Elm Rd, NY 10001";
     latitude := Finite false 4075 (-2); longitude := Finite true 7399 (-2);
     status := Pending; administrativeDesignation := "N/A"; district := "2" |}.

Definition lincolnMiddle : School :=
  {| id := "40.82--73.92-2"; name := "ABRAHAM LINCOLN MIDDLE";
     address := " 10451";
     latitude := Finite false 4082 (-2); longitude := Finite true 7392 (-2);
     status := NoService; administrativeDesignation := "N/A"; district := "N/A" |}.

(** A page showing two schools, one of them selected. *)
Definition ready : App.AppState :=
  {| App.schools := [roosevelt; lincoln; lincolnMiddle]; App.isLoading := false;
     App.error := None; App.searchTerm := "lincoln";
     App.selectedSchool := Some roosevelt; App.lastUpdated := Some 1000 |}.

(** The adapter after its first effects, with two schools drawn. *)
Definition drawn : MapAdapter.Adapter :=
  MapAdapter.markersEffect [lincoln; roosevelt]
    (MapAdapter.initEffect MapAdapter.unmounted).

(** The Google Maps script never arrives. *)
Definition googleNeverLoads : App.Environment :=
  {| App.googleDefined := fun _ => false; App.mapsDefined := fun _ => true;
     App.papaDefined := fun _ => true;
     App.papa := Mapper.PapaComplete sheet; App.now := 2000 |}.


End Samples.

(* ===================================================================== *)
(** ** The rest of the page and of the adapter                            *)
(* ===================================================================== *)

Module Page.
Import App.

(** [{(isLoading && schools.length > 0) && <div>... Updating...</div>}] *)
Definition updatingShown (st : AppState) : bool :=
  isLoading st && (0 <? length (schools st))%nat.

(** [{lastUpdated && !error && <p>Last updated: ...</p>}] *)
Definition lastUpdatedShown (st : AppState) : bool :=
  bool_decide (is_Some (lastUpdated st)) && negb (bool_decide (is_Some (error st))).

(** The three states of the page, as they show. *)
Definition showsLoading (c : Controller) : Prop :=
  exists cycle,
    inFlight c = [cycle] /\ isLoading (app c) = true /\ error (app c) = None /\
    controlsShown (app c) = false /\
    ((schools (app c) = [] /\ renderContent (app c) = LoadingSpinner) \/
     (schools (app c) <> [] /\ updatingShown (app c) = true /\
      renderContent (app c) =
        MapComponent (schools (app c)) (selectedSchool (app c)))).

Definition showsError (c : Controller) : Prop :=
  exists e,
    inFlight c = [] /\ isLoading (app c) = false /\ error (app c) = Some e /\
    lastUpdated (app c) = None /\
    renderContent (app c) = ErrorDisplay (message e) (details e) /\
    controlsShown (app c) = false /\ lastUpdatedShown (app c) = false /\
    updatingShown (app c) = false.

Definition showsReady (c : Controller) : Prop :=
  inFlight c = [] /\ isLoading (app c) = false /\ error (app c) = None /\
  renderContent (app c) = MapComponent (schools (app c)) (selectedSchool (app c)) /\
  controlsShown (app c) = true /\ lastUpdatedShown (app c) = true /\
  updatingShown (app c) = false.

End Page.

Module AdapterRun.
Import MapAdapter.

(** What can happen to the mounted adapter: its three effects, and the two
    listeners of a marker. *)
Inductive Step : Type :=
| Init
| Draw (schools : list School)
| Select (selectedSchool : option School)
| Hover (h : nat)
| Click (h : nat).

Definition step (a : Adapter) (e : Step) : Adapter :=
  match e with
  | Init => initEffect a
  | Draw schools => markersEffect schools a
  | Select selectedSchool => selectionEffect selectedSchool a
  | Hover h => mouseover h a
  | Click h => click h a
  end.

Definition steps (es : list Step) : Adapter := foldl step unmounted es.

(** The collections drawn have one entity per id, as the mapper builds them. *)
Definition distinctIds (e : Step) : Prop :=
  match e with
  | Draw schools => NoDup (id <$> schools)
  | _ => True
  end.

(** Every marker on the map is named by the registry. *)
Definition noOrphans (a : Adapter) : Prop :=
  forall h m, markers a !! h = Some m -> onMap m = true ->
              exists k, markersRef a !! k = Some h.

(** Every registry entry names a marker on the map whose listeners carry a
    school with that id. *)
Definition registryFaithful (a : Adapter) : Prop :=
  forall k h, markersRef a !! k = Some h ->
              exists m, markers a !! h = Some m /\ onMap m = true /\
                        id (listenerSchool m) = k.

End AdapterRun.

Module MoreSamples.


(** Both scripts are there; the download fails. *)
Definition downloadFails : App.Environment :=
  {| App.googleDefined := fun _ => true; App.mapsDefined := fun _ => true;
     App.papaDefined := fun _ => true;
     App.papa := Mapper.PapaError "Network Error"; App.now := 2000 |}.

(** The [google] global appears at the second check, without [maps]. *)
Definition mapsMissing : App.Environment :=
  {| App.googleDefined := fun k => (2 <=? k)%nat; App.mapsDefined := fun _ => false;
     App.papaDefined := fun _ => true;
     App.papa := Mapper.PapaComplete Samples.sheet; App.now := 2000 |}.

(** PapaParse appears at the 60th check, too late. *)
Definition papaLate : nat -> bool := fun k => (60 <=? k)%nat.

(** Two entities under one id. *)
Definition twin : School :=
  {| id := id Samples.lincoln; name := "Lincoln Annex";
     address := "No Address Provided";
     latitude := Finite false 407 (-1); longitude := Finite true 74 0;
     status := Pending; administrativeDesignation := "N/A"; district := "N/A" |}.

Definition searching (term : string) : App.AppState :=
  App.setSearchTerm term Samples.ready.

End MoreSamples.

(* ===================================================================== *)
(** ** Coordinate cells, and runs of the page                             *)
(* ===================================================================== *)

Module Cells.
Import CSV_COLUMN_NAMES.

Definition isDecimalDigit (c : ascii) : bool :=
  let n := N_of_ascii c in ((48 <=? n) && (n <=? 57))%N.

Definition beginsWithDigit (s : string) : bool :=
  match s with
  | String c _ => isDecimalDigit c
  | EmptyString => false
  end.

(** The text begins with a decimal number or with Infinity: a digit, or a
    point followed by a digit. *)
Definition unsignedNumberAhead (s : string) : bool :=
  startsWith s "Infinity" || beginsWithDigit s ||
  match s with
  | String c r => Ascii.eqb c "."%char && beginsWithDigit r
  | EmptyString => false
  end.

(** The cell is there and, after leading white space and an optional sign,
    begins with a number.  What follows the number is not looked at. *)
Definition beginsWithNumber (cell : option string) : bool :=
  match cell with
  | None => false
  | Some s =>
      match trimStart s with
      | EmptyString => false
      | String c r =>
          if (Ascii.eqb c "+" || Ascii.eqb c "-")%char then unsignedNumberAhead r
          else unsignedNumberAhead (String c r)
      end
  end.

(** A row leaves the sheet for one of its coordinates, or for its status. *)
Definition coordinateMissing (row : Row) : bool :=
  negb (beginsWithNumber (row !! LATITUDE)) ||
  negb (beginsWithNumber (row !! LONGITUDE)).

Definition skipped (row : Row) : bool :=
  coordinateMissing row || Mapper.unrecognizedStatus row.

(** A latitude cell that begins with a number and goes on with letters. *)
Definition prefixed : Row :=
  {[ NAME := "Prefix School"; LATITUDE := "12abc"; LONGITUDE := "-73.9";
     STATUS := "Defined" ]}.

(** The same with a unit after the number. *)
Definition withUnit : Row :=
  {[ NAME := "Unit School"; LATITUDE := "40.7 N"; LONGITUDE := "73.9 W";
     STATUS := "Pending" ]}.

End Cells.

Module Runs.
Import Mapper App.







End Runs.

(* ===================================================================== *)
(** * Properties                                                          *)
(* ===================================================================== *)

(** ** Strings *)

Section StringFacts.
Import JsString.

Lemma truthy_false (s : string) : truthy s = false <-> s = EmptyString.
Proof. destruct s; simpl; split; congruence. Qed.

Lemma truthy_true (s : string) : truthy s = true <-> s <> EmptyString.
Proof. destruct s; simpl; split; congruence. Qed.

Lemma orElse_empty (v : option string) :
  orElse v EmptyString = EmptyString <-> v = None \/ v = Some EmptyString.
Proof.
  destruct v as [[|c s]|]; simpl; split; intros H; auto; try congruence.
  destruct H; congruence.
Qed.

Lemma append_empty_inv (s t : string) :
  s ++ t = EmptyString -> s = EmptyString /\ t = EmptyString.
Proof. destruct s; simpl; [auto | discriminate]. Qed.

Lemma append_assoc (s t u : string) : (s ++ t) ++ u = s ++ (t ++ u).
Proof.
  induction s as [|a s IH]; [reflexivity |].
  change (String a ((s ++ t) ++ u) = String a (s ++ (t ++ u))).
  rewrite IH. reflexivity.
Qed.

Lemma append_cons (a : ascii) (s t : string) :
  String a s ++ t = String a (s ++ t).
Proof. reflexivity. Qed.

Lemma startsWith_spec (s t : string) :
  startsWith s t = true <-> exists after, s = t ++ after.
Proof.
  revert s. induction t as [|b t IH]; intros s.
  - destruct s; simpl; split; eauto.
  - destruct s as [|a s]; simpl.
    + split; [discriminate | intros [after H]; discriminate].
    + destruct (Ascii.eqb_spec a b) as [->|Hne].
      * rewrite IH. split; intros [after H]; exists after.
        -- rewrite append_cons, H. reflexivity.
        -- rewrite append_cons in H. congruence.
      * split; [discriminate |]. intros [after H].
        rewrite append_cons in H. congruence.
Qed.

Lemma includes_unfold (s t : string) :
  includes s t =
  if startsWith s t then true
  else match s with
       | EmptyString => false
       | String _ s' => includes s' t
       end.
Proof. destruct s; reflexivity. Qed.

Lemma includes_spec (s t : string) :
  includes s t = true <-> substringOf t s.
Proof.
  unfold substringOf. induction s as [|a s IH]; rewrite includes_unfold.
  - destruct (startsWith EmptyString t) eqn:Hs.
    + apply startsWith_spec in Hs as [after H]. split; [intros _ | reflexivity].
      exists EmptyString, after. exact H.
    + split; [discriminate |]. intros (before & after & H).
      destruct before; [| discriminate].
      assert (startsWith EmptyString t = true); [| congruence].
      apply startsWith_spec. exists after. exact H.
  - destruct (startsWith (String a s) t) eqn:Hs.
    + apply startsWith_spec in Hs as [after H]. split; [intros _ | reflexivity].
      exists EmptyString, after. exact H.
    + rewrite IH. split.
      * intros (before & after & H). exists (String a before), after.
        rewrite append_cons, H. reflexivity.
      * intros (before & after & H). destruct before as [|a' before].
        -- assert (startsWith (String a s) t = true); [| congruence].
           apply startsWith_spec. exists after. exact H.
        -- rewrite append_cons in H. injection H as _ H. eauto.
Qed.

Lemma trimStart_blank (s : string) :
  trimStart s = EmptyString <-> blank s = true.
Proof.
  induction s as [|c s IH]; simpl; [tauto |].
  destruct (isWhiteSpace c); simpl; [exact IH | split; discriminate].
Qed.

Lemma trimEnd_blank (s : string) :
  trimEnd s = EmptyString <-> blank s = true.
Proof.
  induction s as [|c s IH]; simpl; [tauto |].
  destruct (trimEnd s) eqn:Ht.
  - destruct (isWhiteSpace c); simpl; [tauto | split; discriminate].
  - split; [discriminate |]. intros H. apply andb_true_iff in H as [_ H].
    apply IH in H. discriminate.
Qed.

Lemma blank_trimStart (s : string) : blank (trimStart s) = blank s.
Proof.
  induction s as [|c s IH]; simpl; [reflexivity |].
  destruct (isWhiteSpace c) eqn:Hc; simpl; [exact IH | rewrite Hc; reflexivity].
Qed.

(** [!s.trim()] holds exactly for the strings of white space only. *)
Lemma trim_blank (s : string) : truthy (trim s) = false <-> blank s = true.
Proof.
  rewrite truthy_false. unfold trim. rewrite trimEnd_blank, blank_trimStart.
  tauto.
Qed.

Lemma find_first {A : Type} (p : A -> bool) (l : list A) (x : A) :
  List.find p l = Some x ->
  exists before after,
    l = (before ++ x :: after)%list /\ p x = true /\
    Forall (fun y => p y = false) before.
Proof.
  induction l as [|y l IH]; simpl; [discriminate |].
  destruct (p y) eqn:Hy.
  - intros [= ->]. exists [], l. auto.
  - intros H. apply IH in H as (before & after & -> & Hx & Hb).
    exists (y :: before), after. auto.
Qed.

Lemma find_first_unique {A : Type} (P : A -> Prop) (b1 b2 a1 a2 : list A) (x y : A) :
  (b1 ++ x :: a1 = b2 ++ y :: a2)%list ->
  P x -> P y -> Forall (fun z => ~ P z) b1 -> Forall (fun z => ~ P z) b2 ->
  x = y.
Proof.
  revert b2. induction b1 as [|z b1 IH]; intros [|w b2] Heq Hx Hy H1 H2;
    simpl in Heq; injection Heq as -> Heq.
  - reflexivity.
  - inversion H2; subst. contradiction.
  - inversion H1; subst. contradiction.
  - inversion H1; inversion H2; subst. eapply IH; eauto.
Qed.

Lemma countChar_app (c : ascii) (s t : string) :
  countChar c (s ++ t) = countChar c s + countChar c t.
Proof. induction s as [|a s IH]; simpl; [reflexivity | rewrite IH; lia]. Qed.

Lemma join_empty_inv (sep : string) (parts : list string) :
  Forall (fun p => p <> EmptyString) parts ->
  join sep parts = EmptyString -> parts = [].
Proof.
  intros Hne Hj. destruct parts as [|p rest]; [reflexivity | exfalso].
  inversion Hne as [|? ? Hp _]; subst. apply Hp.
  destruct rest; simpl in Hj; [assumption |].
  apply append_empty_inv in Hj. tauto.
Qed.

(** The separator contributes one comma per gap between two parts. *)
Lemma countChar_join_comma (parts : list string) :
  Forall (fun p => countChar ","%char p = 0) parts ->
  countChar ","%char (join ", " parts) = pred (length parts).
Proof.
  induction 1 as [|p rest Hp Hrest IH]; [reflexivity |].
  destruct rest as [|q rest]; [simpl; assumption |].
  change (join ", " (p :: q :: rest)) with (p ++ ", " ++ join ", " (q :: rest)).
  rewrite !countChar_app, IH, Hp. simpl. lia.
Qed.

End StringFacts.

(** ** The model on sample inputs *)

Section Evaluation.
Import Mapper.

Example parseFloat_samples :
  parseFloat (Some "40.7128") = Finite false 407128 (-4) /\
  parseFloat (Some "  -74.0060 W") = Finite true 74006 (-3) /\
  parseFloat (Some "12abc") = Finite false 12 0 /\
  parseFloat (Some ".5e1") = Finite false 5 0 /\
  parseFloat (Some "north") = NaN /\
  parseFloat (Some EmptyString) = NaN /\
  parseFloat None = NaN /\
  parseFloat (Some "-Infinity") = Infinity true /\
  parseFloat (Some "1.7976931348623157e308") = Finite false 17976931348623157 292 /\
  parseFloat (Some "1e309") = Infinity false.
Proof. vm_compute. repeat split. Qed.

Example toString_samples :
  toString (parseFloat (Some "40.7128")) = "40.7128" /\
  toString (parseFloat (Some "-74.0060")) = "-74.006" /\
  toString (parseFloat (Some "0.000001")) = "0.000001" /\
  toString (parseFloat (Some "1e21")) = "1e+21" /\
  toString (parseFloat (Some "-0")) = "0" /\
  toString (fst MAP_CENTER) = "40.7128" /\ toString (snd MAP_CENTER) = "-74.006".
Proof. vm_compute. repeat split. Qed.

Example string_samples :
  trim "  No Service  " = "No Service" /\
  toLowerCase "Lincoln High School" = "lincoln high school" /\
  includes "lincoln high school" "lincoln" = true /\
  includes "roosevelt academy" "lincoln" = false /\
  join ", " ["a"; "b"; "c"] = "a, b, c".
Proof. vm_compute. repeat split. Qed.

Example mapRow_sample :
  mapRow Samples.brooklyn 0 = ([], Some Samples.lincoln13) /\
  mapRow Samples.badLatitude 1 =
    (["Skipping row 3 due to invalid latitude/longitude."], None) /\
  mapRow Samples.badStatus 3 =
    (["Skipping row 5 due to unrecognized status: " ++ dq ++ "defined" ++ dq], None).
Proof. vm_compute. repeat split. Qed.

Example fetchSchoolData_sample :
  exists result,
    fetchSchoolData (PapaComplete Samples.sheet) =
      (["Skipping row 3 due to invalid latitude/longitude.";
        "Skipping row 5 due to unrecognized status: " ++ dq ++ "defined" ++ dq;
        "Skipping row 6 due to invalid latitude/longitude."],
       Resolved result) /\
    id <$> result =
      ["40.6782--73.9442-0"; "40.75--73.99-2"; "40.82--73.92-5"; "40.1--73.1-6"] /\
    address <$> result =
      ["123 Main St, Brooklyn, NY 11201"; "9 Elm Rd, NY 10001"; " 10451";
       "No Address Provided"].
Proof. eexists. vm_compute. repeat split. Qed.

End Evaluation.

(** ** Record mapper *)

Section MapperFacts.
Import Mapper CSV_COLUMN_NAMES.

Lemma matchStatus_Some (sheetStatus : string) (st : SchoolStatus) :
  matchStatus sheetStatus = Some st -> sheetStatus = statusValue st.
Proof.
  unfold matchStatus.
  destruct (String.eqb_spec sheetStatus "Defined"); [intros [= <-]; assumption |].
  destruct (String.eqb_spec sheetStatus "Pending"); [intros [= <-]; assumption |].
  destruct (String.eqb_spec sheetStatus "No Service"); [intros [= <-]; assumption |].
  discriminate.
Qed.

Lemma matchStatus_None (sheetStatus : string) :
  matchStatus sheetStatus = None <->
  sheetStatus ∉ ["Defined"; "Pending"; "No Service"].
Proof.
  unfold matchStatus. rewrite !not_elem_of_cons.
  destruct (String.eqb_spec sheetStatus "Defined"); [split; [discriminate | tauto] |].
  destruct (String.eqb_spec sheetStatus "Pending"); [split; [discriminate | tauto] |].
  destruct (String.eqb_spec sheetStatus "No Service"); [split; [discriminate | tauto] |].
  split; [intros _ | reflexivity]. repeat split; auto. apply not_elem_of_nil.
Qed.

Lemma statusValue_recognized (st : SchoolStatus) :
  statusValue st ∈ ["Defined"; "Pending"; "No Service"].
Proof. destruct st; simpl; set_solver. Qed.

(** What an accepted row looks like. *)
Lemma mapRow_Some (row : Row) (index : nat) (lines : list string) (s : School) :
  mapRow row index = (lines, Some s) ->
  lines = [] /\
  invalidLatLng row = false /\
  sheetStatusOf row = statusValue (status s) /\
  latitude s = parseFloat (row !! LATITUDE) /\
  longitude s = parseFloat (row !! LONGITUDE) /\
  name s = orElse (row !! NAME) "Unnamed School" /\
  address s =
    (let a := fullAddress (streetOf row) (cityOf row) (stateOf row) (zipOf row) in
     if truthy a then a else "No Address Provided") /\
  id s = toString (latitude s) ++ "-" ++ toString (longitude s) ++ "-" ++ ofNat index.
Proof.
  unfold mapRow, invalidLatLng, sheetStatusOf.
  destruct (isNaN _ || isNaN _) eqn:Hnan; [discriminate |].
  destruct (matchStatus _) as [st|] eqn:Hst; [| discriminate].
  intros [= <- <-]. simpl. apply matchStatus_Some in Hst. tauto.
Qed.

(** A row is skipped exactly when it is [excluded]. *)
Lemma mapRow_None (row : Row) (index : nat) :
  snd (mapRow row index) = None <-> excluded row = true.
Proof.
  unfold mapRow, excluded, unrecognizedStatus, invalidLatLng, sheetStatusOf.
  destruct (isNaN _ || isNaN _) eqn:Hnan; simpl; [tauto |].
  destruct (matchStatus _) as [st|] eqn:Hst; simpl.
  - apply matchStatus_Some in Hst. rewrite Hst.
    rewrite bool_decide_eq_true_2 by apply statusValue_recognized.
    simpl. split; discriminate.
  - apply matchStatus_None in Hst.
    rewrite bool_decide_eq_false_2 by assumption. tauto.
Qed.

Lemma mapRow_invalidLatLng (row : Row) (index : nat) :
  invalidLatLng row = true -> mapRow row index = ([warnLatLng index], None).
Proof. unfold mapRow, invalidLatLng. intros ->. reflexivity. Qed.

Lemma complete_elem (data : list Row) (s : School) :
  s ∈ snd (complete data) <->
  exists index row, data !! index = Some row /\ snd (mapRow row index) = Some s.
Proof.
  unfold complete, mapRows. simpl. rewrite list_elem_of_omap. split.
  - intros (x & Hx & Hs). apply elem_of_lookup_imap in Hx as (i & row & -> & Hrow).
    eauto.
  - intros (i & row & Hrow & Hs). eexists. split; [| exact Hs].
    apply (elem_of_lookup_imap_2 (fun index row => mapRow row index)). exact Hrow.
Qed.

Lemma complete_warning (data : list Row) (index : nat) (row : Row) (line : string) :
  data !! index = Some row -> line ∈ fst (mapRow row index) ->
  line ∈ fst (complete data).
Proof.
  intros Hrow Hline. unfold complete, mapRows. simpl.
  apply list_elem_of_In, in_concat. exists (fst (mapRow row index)).
  split; [| apply list_elem_of_In; assumption].
  apply list_elem_of_In, list_elem_of_fmap. eexists. split; [reflexivity |].
  apply (elem_of_lookup_imap_2 (fun index row => mapRow row index)). exact Hrow.
Qed.

Lemma omap_imap_length {A B W : Type} (f : nat -> A -> W * option B)
      (skip : A -> bool) (l : list A) :
  (forall i x, snd (f i x) = None <-> skip x = true) ->
  length (omap snd (imap f l)) + length (List.filter skip l) = length l.
Proof.
  revert f. induction l as [|x l IH]; intros f Hf; [reflexivity |].
  assert (Hl : length (omap snd (imap (f ∘ S) l)) + length (List.filter skip l)
               = length l).
  { apply IH. intros i y. apply Hf. }
  change (omap snd (imap f (x :: l)))
    with (match snd (f 0 x) with
          | Some y => y :: omap snd (imap (f ∘ S) l)
          | None => omap snd (imap (f ∘ S) l)
          end).
  change (List.filter skip (x :: l))
    with (if skip x then x :: List.filter skip l else List.filter skip l).
  destruct (snd (f 0 x)) as [b|] eqn:Hfx.
  - destruct (skip x) eqn:Hskip; [| simpl; lia].
    pose proof (proj2 (Hf 0 x) Hskip). congruence.
  - rewrite (proj1 (Hf 0 x) Hfx). simpl. lia.
Qed.

Lemma complete_length (data : list Row) :
  length (snd (complete data)) + length (List.filter excluded data) = length data.
Proof.
  unfold complete, mapRows. simpl.
  apply omap_imap_length. intros i row. apply mapRow_None.
Qed.

Lemma fetchSchoolData_Resolved (papa : PapaOutcome) (lines : list string)
      (result : list School) :
  fetchSchoolData papa = (lines, Resolved result) ->
  exists data, papa = PapaComplete data /\ complete data = (lines, result).
Proof.
  destruct papa as [data|msg]; simpl; [| discriminate].
  destruct (complete data) as [w l]. intros [= <- <-]. eauto.
Qed.

End MapperFacts.

(** ** The claims on the record mapper *)

Section MapperClaims.
Import Mapper CSV_COLUMN_NAMES.

Lemma filter_orb_length {A : Type} (p q : A -> bool) (l : list A) :
  length (List.filter (fun x => p x || q x) l) =
  length (List.filter p l) + length (List.filter (fun x => negb (p x) && q x) l).
Proof.
  induction l as [|x l IH]; [reflexivity |]. simpl.
  destruct (p x), (q x); simpl; lia.
Qed.

Lemma fullAddress_empty (street city state zip : string) :
  truthy (fullAddress street city state zip) = false <->
  street = EmptyString /\ city = EmptyString /\ state = EmptyString /\
  zip = EmptyString.
Proof.
  unfold fullAddress.
  destruct street, city, state, zip; simpl; split; intros H;
    try discriminate; try tauto; destruct H as (? & ? & ? & ?); discriminate.
Qed.

(** C1 fails as stated: a latitude cell reading Infinity is accepted, and
    the entity built from it has a latitude that is not finite. *)
Lemma fetchSchoolData_accepts_infinite_latitude :
  exists lines result s,
    fetchSchoolData (PapaComplete [Samples.infiniteLatitude]) = (lines, Resolved result) /\
    s ∈ result /\ isFinite (latitude s) = false.
Proof.
  eexists _, _, _. split; [vm_compute; reflexivity |].
  split; [apply list_elem_of_here | reflexivity].
Qed.

(** C1, amended: every School returned by fetchSchoolData comes from a row
    of the input, has a latitude and a longitude that are not NaN (the
    values parseFloat gave; Infinity and -Infinity pass), and a status
    whose string is the trimmed Status cell, one of "Defined", "Pending",
    "No Service"; every row with a NaN coordinate or another status is
    dropped by the mapping. *)
Theorem fetchSchoolData_entities_valid
        (papa : PapaOutcome) (lines : list string) (result : list School) :
  fetchSchoolData papa = (lines, Resolved result) ->
  exists data, papa = PapaComplete data /\
    (forall s, s ∈ result ->
       isNaN (latitude s) = false /\ isNaN (longitude s) = false /\
       statusValue (status s) ∈ ["Defined"; "Pending"; "No Service"] /\
       exists index row,
         data !! index = Some row /\ snd (mapRow row index) = Some s /\
         latitude s = parseFloat (row !! LATITUDE) /\
         longitude s = parseFloat (row !! LONGITUDE) /\
         statusValue (status s) = trim (orElse (row !! STATUS) EmptyString)) /\
    (forall index row,
       data !! index = Some row ->
       isNaN (parseFloat (row !! LATITUDE)) = true \/
       isNaN (parseFloat (row !! LONGITUDE)) = true \/
       trim (orElse (row !! STATUS) EmptyString) ∉ ["Defined"; "Pending"; "No Service"] ->
       snd (mapRow row index) = None /\
       forall s, s ∈ result -> snd (mapRow row index) <> Some s).
Proof.
  intros Hfetch. apply fetchSchoolData_Resolved in Hfetch as (data & -> & Hc).
  exists data. split; [reflexivity |].
  assert (Hres : result = snd (complete data)) by (rewrite Hc; reflexivity).
  split.
  - intros s Hs. rewrite Hres in Hs.
    apply complete_elem in Hs as (index & row & Hrow & Hmap).
    destruct (mapRow row index) as [w o] eqn:Hm. simpl in Hmap. subst o.
    pose proof (mapRow_Some _ _ _ _ Hm) as (_ & Hll & Hst & Hlat & Hlng & _).
    unfold invalidLatLng in Hll. apply orb_false_elim in Hll as [Ha Hb].
    rewrite Hlat, Hlng. repeat split; try assumption.
    + apply statusValue_recognized.
    + exists index, row. rewrite Hm. simpl. repeat split; auto.
  - intros index row Hrow Hbad.
    assert (Hex : excluded row = true).
    { unfold excluded, invalidLatLng, unrecognizedStatus, sheetStatusOf.
      destruct Hbad as [-> | [-> | Hst]]; simpl; rewrite ?orb_true_r; try reflexivity.
      rewrite bool_decide_eq_false_2 by assumption. apply orb_true_r. }
    apply mapRow_None with (index := index) in Hex. split; [assumption |].
    intros s _. rewrite Hex. discriminate.
Qed.

Lemma fetchSchoolData_entities_valid_witness :
  exists data, PapaComplete Samples.sheet = PapaComplete data /\
    (forall s, s ∈ snd (complete Samples.sheet) ->
       isNaN (latitude s) = false /\ isNaN (longitude s) = false /\
       statusValue (status s) ∈ ["Defined"; "Pending"; "No Service"] /\
       exists index row,
         data !! index = Some row /\ snd (mapRow row index) = Some s /\
         latitude s = parseFloat (row !! LATITUDE) /\
         longitude s = parseFloat (row !! LONGITUDE) /\
         statusValue (status s) = trim (orElse (row !! STATUS) EmptyString)) /\
    (forall index row,
       data !! index = Some row ->
       isNaN (parseFloat (row !! LATITUDE)) = true \/
       isNaN (parseFloat (row !! LONGITUDE)) = true \/
       trim (orElse (row !! STATUS) EmptyString) ∉ ["Defined"; "Pending"; "No Service"] ->
       snd (mapRow row index) = None /\
       forall s, s ∈ snd (complete Samples.sheet) -> snd (mapRow row index) <> Some s).
Proof.
  apply (fetchSchoolData_entities_valid (PapaComplete Samples.sheet)
           (fst (complete Samples.sheet))).
  vm_compute. reflexivity.
Defined.

(** C3: for an accepted row, the address is the non-empty parts among
    street, city, state, in that order, joined by ", ", then a space and
    the zip when there is one (unless all of it is empty); the sample of
    the specification comes out as written; with an empty city the street
    and the state are joined by one separator, and when no field holds a
    comma the address has one comma less than it has non-empty parts. *)
Theorem mapRow_address_assembly
        (row : Row) (index : nat) (lines : list string) (s : School) :
  mapRow row index = (lines, Some s) ->
  let street := orElse (row !! ADDRESS) EmptyString in
  let city := orElse (row !! CITY) EmptyString in
  let state := orElse (row !! STATE) EmptyString in
  let zip := orElse (row !! ZIP_CODE) EmptyString in
  let parts := List.filter (fun p => negb (String.eqb p EmptyString))
                           [street; city; state] in
  let assembled :=
    join ", " parts ++ (if String.eqb zip EmptyString then EmptyString else " " ++ zip) in
  (assembled <> EmptyString -> address s = assembled) /\
  Forall (fun p => p <> EmptyString) parts /\
  (street <> EmptyString -> city <> EmptyString -> state <> EmptyString ->
   zip <> EmptyString ->
   address s = street ++ ", " ++ city ++ ", " ++ state ++ " " ++ zip) /\
  (street <> EmptyString -> city = EmptyString -> state <> EmptyString ->
   zip <> EmptyString ->
   address s = street ++ ", " ++ state ++ " " ++ zip) /\
  (countChar ","%char street = 0 -> countChar ","%char city = 0 ->
   countChar ","%char state = 0 -> countChar ","%char zip = 0 ->
   countChar ","%char assembled = pred (length parts)) /\
  fullAddress "123 Main St" "Brooklyn" "NY" "11201" = "123 Main St, Brooklyn, NY 11201" /\
  fullAddress "123 Main St" EmptyString "NY" "11201" = "123 Main St, NY 11201".
Proof.
  intros Hm. pose proof (mapRow_Some _ _ _ _ Hm) as (_ & _ & _ & _ & _ & _ & Haddr & _).
  unfold streetOf, cityOf, stateOf, zipOf in Haddr. simpl in Haddr.
  intros street city state zip parts assembled.
  fold street city state zip in Haddr.
  assert (Hfull : fullAddress street city state zip = assembled).
  { unfold fullAddress, assembled, parts.
    destruct street, city, state, zip; reflexivity. }
  rewrite Hfull in Haddr.
  assert (Hparts : Forall (fun p => p <> EmptyString) parts).
  { unfold parts. destruct street, city, state; simpl;
      repeat constructor; discriminate. }
  split; [| split; [exact Hparts | split; [| split; [| split; [| split]]]]].
  - intros Hne. apply truthy_true in Hne. rewrite Hne in Haddr. exact Haddr.
  - intros H1 H2 H3 H4. rewrite Haddr. unfold assembled, parts.
    destruct street, city, state, zip; try congruence. simpl.
    rewrite !append_assoc. reflexivity.
  - intros H1 H2 H3 H4. rewrite Haddr. unfold assembled, parts. rewrite H2.
    destruct street, state, zip; try congruence. simpl.
    rewrite !append_assoc. reflexivity.
  - intros H1 H2 H3 H4. unfold assembled. rewrite countChar_app.
    rewrite countChar_join_comma.
    + destruct zip; simpl in *; [lia |]. rewrite H4. lia.
    + unfold parts. destruct street, city, state; simpl in *;
        repeat constructor; assumption.
  - reflexivity.
  - reflexivity.
Qed.

Lemma mapRow_address_assembly_witness :
  address Samples.lincoln13
  = "123 Main St" ++ ", " ++ "Brooklyn" ++ ", " ++ "NY" ++ " " ++ "11201".
Proof.
  refine (proj1 (proj2 (proj2
    (mapRow_address_assembly Samples.brooklyn 0 [] _ _))) _ _ _ _);
    [vm_compute; reflexivity | vm_compute; discriminate ..].
Defined.

(** C10: for an accepted row, the fallback "No Address Provided" is taken
    exactly when street, city, state and zip are all empty; with only a zip
    the address is a space followed by the zip; and a missing (or empty)
    School Name gives "Unnamed School". *)
Theorem mapRow_fallbacks
        (row : Row) (index : nat) (lines : list string) (s : School) :
  mapRow row index = (lines, Some s) ->
  let street := orElse (row !! ADDRESS) EmptyString in
  let city := orElse (row !! CITY) EmptyString in
  let state := orElse (row !! STATE) EmptyString in
  let zip := orElse (row !! ZIP_CODE) EmptyString in
  let allEmpty := street = EmptyString /\ city = EmptyString /\
                  state = EmptyString /\ zip = EmptyString in
  (fullAddress street city state zip = EmptyString <-> allEmpty) /\
  (allEmpty -> address s = "No Address Provided") /\
  (~ allEmpty -> address s = fullAddress street city state zip) /\
  (street = EmptyString -> city = EmptyString -> state = EmptyString ->
   zip <> EmptyString -> address s = " " ++ zip) /\
  (row !! NAME = None \/ row !! NAME = Some EmptyString ->
   name s = "Unnamed School") /\
  (forall n, row !! NAME = Some n -> n <> EmptyString -> name s = n).
Proof.
  intros Hm.
  pose proof (mapRow_Some _ _ _ _ Hm) as (_ & _ & _ & _ & _ & Hname & Haddr & _).
  unfold streetOf, cityOf, stateOf, zipOf in Haddr. simpl in Haddr.
  intros street city state zip allEmpty.
  fold street city state zip in Haddr.
  pose proof (fullAddress_empty street city state zip) as Hemp.
  fold allEmpty in Hemp. rewrite truthy_false in Hemp.
  split; [exact Hemp | split; [| split; [| split; [| split]]]].
  - intros Hall. apply Hemp in Hall. rewrite Hall in Haddr. exact Haddr.
  - intros Hnot. destruct (truthy (fullAddress street city state zip)) eqn:Ht;
      [exact Haddr |]. apply truthy_false in Ht. tauto.
  - intros H1 H2 H3 H4. rewrite Haddr. unfold fullAddress.
    rewrite H1, H2, H3. destruct zip; [congruence | reflexivity].
  - intros [Hn | Hn]; rewrite Hname, Hn; reflexivity.
  - intros n Hn Hne. rewrite Hname, Hn. destruct n; [congruence | reflexivity].
Qed.

Lemma mapRow_fallbacks_witness :
  exists s, snd (mapRow Samples.zipOnly 5) = Some s /\ address s = " " ++ "10451".
Proof.
  eexists. split; [vm_compute; reflexivity |].
  refine (proj1 (proj2 (proj2 (proj2
    (mapRow_fallbacks Samples.zipOnly 5 [] _ _)))) _ _ _ _);
    [vm_compute; reflexivity | vm_compute; reflexivity ..
    | vm_compute; discriminate].
Defined.

End MapperClaims.

(** ** The claims on the application controller *)

Section AppClaims.
Import Mapper App.

Lemma handleSearch_frame (st : AppState) :
  let st' := fst (handleSearch st) in
  schools st' = schools st /\ isLoading st' = isLoading st /\
  error st' = error st /\ searchTerm st' = searchTerm st /\
  lastUpdated st' = lastUpdated st.
Proof.
  unfold handleSearch. destruct (negb _); [simpl; auto |].
  destruct (List.find _ _); simpl; auto.
Qed.

(** C4: [handleSearch] never changes the collection; a blank input clears
    the selection; otherwise the first school in collection order whose
    name contains the input, letter case ignored, becomes the selection;
    and when no name contains it, the user is alerted and the selection
    is cleared. *)
Theorem handleSearch_selects_first_match (st : AppState) :
  let st' := fst (handleSearch st) in
  let lines := snd (handleSearch st) in
  schools st' = schools st /\
  (blank (searchTerm st) = true -> selectedSchool st' = None /\ lines = []) /\
  (blank (searchTerm st) = false ->
   (forall before found after,
      schools st = (before ++ found :: after)%list ->
      nameContains (searchTerm st) found ->
      Forall (fun school => ~ nameContains (searchTerm st) school) before ->
      selectedSchool st' = Some found /\ lines = []) /\
   ((forall school, school ∈ schools st -> ~ nameContains (searchTerm st) school) ->
    selectedSchool st' = None /\
    lines = ["No school found matching " ++ dq ++ searchTerm st ++ dq ++ "."])).
Proof.
  intros st' lines. split; [apply handleSearch_frame |].
  subst st' lines. unfold handleSearch.
  destruct (truthy (trim (searchTerm st))) eqn:Htrim; simpl.
  - assert (Hb : blank (searchTerm st) = false).
    { destruct (blank (searchTerm st)) eqn:Hb; [| reflexivity].
      apply trim_blank in Hb. congruence. }
    split; [rewrite Hb; discriminate | intros _].
    set (p := fun school : School =>
                includes (toLowerCase (name school)) (toLowerCase (searchTerm st))).
    assert (Hp : forall school, p school = true <-> nameContains (searchTerm st) school).
    { intros school. unfold p, nameContains. apply includes_spec. }
    destruct (List.find p (schools st)) as [x|] eqn:Hfind; simpl.
    + apply find_first in Hfind as (b0 & a0 & Hl & Hx & Hb0). split.
      * intros before found after Hsplit Hfound Hbefore. split; [| reflexivity].
        f_equal.
        apply (find_first_unique (nameContains (searchTerm st)) b0 before a0 after).
        -- congruence.
        -- apply Hp, Hx.
        -- exact Hfound.
        -- eapply Forall_impl; [exact Hb0 |]. intros y Hy Hc.
           apply Hp in Hc. simpl in Hy. congruence.
        -- exact Hbefore.
      * intros Hnone. exfalso. apply (Hnone x); [| apply Hp, Hx].
        rewrite Hl. apply list_elem_of_In, in_or_app. right. left. reflexivity.
    + split; [| intros _; split; reflexivity].
      intros before found after Hsplit Hfound _. exfalso.
      pose proof (find_none _ _ Hfind found) as Hnf.
      apply Hp in Hfound. rewrite Hnf in Hfound; [discriminate |].
      rewrite Hsplit. apply in_or_app. right. left. reflexivity.
  - apply trim_blank in Htrim. split; [intros _; split; reflexivity |].
    rewrite Htrim. discriminate.
Qed.

Lemma handleSearch_selects_first_match_witness :
  selectedSchool (fst (handleSearch Samples.ready)) = Some Samples.lincoln /\
  snd (handleSearch Samples.ready) = [].
Proof.
  pose proof (handleSearch_selects_first_match Samples.ready) as (_ & _ & H).
  destruct (H ltac:(reflexivity)) as [Hfirst _].
  apply (Hfirst [Samples.roosevelt] Samples.lincoln [Samples.lincolnMiddle]).
  - reflexivity.
  - exists EmptyString, " high school". reflexivity.
  - constructor; [| constructor]. intros Hc. apply includes_spec in Hc.
    vm_compute in Hc. discriminate.
Defined.

(** *** Failing loads *)

Lemma loadData_end_Rejected (errorMessage : string) (now : nat) (st : AppState) :
  let st' := loadData_end (Rejected errorMessage) now st in
  error st' = Some {| message := errorMessage; details := classify errorMessage |} /\
  isLoading st' = false /\ lastUpdated st' = None /\
  schools st' = schools st /\ selectedSchool st' = selectedSchool st /\
  renderContent st' = ErrorDisplay errorMessage (classify errorMessage).
Proof. simpl. unfold renderContent. simpl. auto 10. Qed.

(** C5 fails as stated: after a failed refresh the controller still holds
    the schools of the previous load and the previous selection. *)
Lemma loadData_failure_keeps_schools :
  exists st',
    loadData Samples.googleNeverLoads 51 Samples.ready = Some (st', 51) /\
    is_Some (error st') /\
    schools st' = [Samples.roosevelt; Samples.lincoln; Samples.lincolnMiddle] /\
    selectedSchool st' = Some Samples.roosevelt.
Proof.
  eexists. split; [vm_compute; reflexivity |]. simpl. eauto.
Qed.

(** C5, amended: whenever a load fails, the controller records the error
    (its message and the remediation picked from it), clears the load
    timestamp and the loading flag, and renders the error display in place
    of the map, so no result is visible next to the error; the School
    collection and the selection stay in the state as they were. *)
Theorem loadData_failure
        (env : Environment) (fuel : nat) (st : AppState)
        (errorMessage : string) (t : nat) (lines : list string) :
  loadData_try env fuel = Some (Rejected errorMessage, t, lines) ->
  exists st',
    loadData env fuel st = Some (st', t) /\
    error st' = Some {| message := errorMessage; details := classify errorMessage |} /\
    isLoading st' = false /\ lastUpdated st' = None /\
    renderContent st' = ErrorDisplay errorMessage (classify errorMessage) /\
    schools st' = schools st /\ selectedSchool st' = selectedSchool st.
Proof.
  intros Htry. unfold loadData. rewrite Htry. eexists. split; [reflexivity |].
  pose proof (loadData_end_Rejected errorMessage (now env) (loadData_begin st))
    as (He & Hl & Hu & Hs & Hsel & Hr).
  repeat split; assumption.
Qed.

Lemma loadData_failure_witness :
  exists st',
    loadData Samples.googleNeverLoads 51 Samples.ready = Some (st', 51) /\
    error st' = Some {| message := libraryError "google";
                        details := classify (libraryError "google") |} /\
    isLoading st' = false /\ lastUpdated st' = None /\
    renderContent st' =
      ErrorDisplay (libraryError "google") (classify (libraryError "google")) /\
    schools st' = schools Samples.ready /\
    selectedSchool st' = selectedSchool Samples.ready.
Proof.
  apply (loadData_failure Samples.googleNeverLoads 51 Samples.ready
           (libraryError "google") 51 []).
  vm_compute. reflexivity.
Defined.

(** *** Overlapping loads *)

Lemma handle_EndLoad_Resolved (c : Controller) (cycle : nat)
      (data : list School) (now : nat) :
  cycle ∈ inFlight c ->
  let c' := handle (EndLoad cycle (Resolved data) now) c in
  schools (app c') = data /\ lastUpdated (app c') = Some now /\
  isLoading (app c') = false /\ cycle ∉ inFlight c'.
Proof.
  intros Hin. simpl. rewrite bool_decide_eq_true_2 by assumption. simpl.
  repeat split. intros Hc. apply list_elem_of_In, filter_In in Hc as [_ Hc].
  rewrite Nat.eqb_refl in Hc. discriminate.
Qed.


(** *** Waiting for the libraries *)


Lemma poll_resolves (name : string) (avail : nat -> bool) :
  forall fuel t attempts g,
    1 <= g -> g <= fuel -> attempts + g <= maxAttempts + 1 ->
    avail (t + g) = true ->
    (forall k, t < k < t + g -> avail k = false) ->
    poll name avail fuel t attempts = Some (Resolved tt, t + g).
Proof.
  unfold maxAttempts.
  induction fuel as [|fuel IH]; intros t attempts g Hg Hfuel Hatt Hyes Hno; [lia |].
  simpl. unfold tick. destruct (Nat.eq_dec g 1) as [-> | Hne].
  - replace (t + 1) with (S t) in * by lia. rewrite Hyes. reflexivity.
  - rewrite (Hno (S t)) by lia. unfold maxAttempts.
    destruct (Nat.ltb_spec 50 (S attempts)); [lia |].
    replace (t + g) with (S t + (g - 1)) in * by lia.
    apply IH; try lia; [assumption |]. intros k Hk. apply Hno. lia.
Qed.





End AppClaims.

(** ** The claims on the map adapter *)

Section MapAdapterClaims.
Import MapAdapter.

Lemma setMapNull_idemp (m : Marker) : setMapNull (setMapNull m) = setMapNull m.
Proof. reflexivity. Qed.

(** After [forEach(marker => marker.setMap(null))] a marker object is
    detached when the registry names it, and untouched otherwise. *)
Lemma detachAll_lookup (registry : gmap string nat) (objs : list Marker) (h : nat) :
  (detachAll registry objs !! h = objs !! h /\
   forall k, registry !! k <> Some h) \/
  (detachAll registry objs !! h = setMapNull <$> objs !! h /\
   exists k, registry !! k = Some h).
Proof.
  unfold detachAll.
  apply (map_fold_weak_ind
           (fun (r : list Marker) (m : gmap string nat) =>
              (r !! h = objs !! h /\ forall k, m !! k <> Some h) \/
              (r !! h = setMapNull <$> objs !! h /\ exists k, m !! k = Some h))).
  - left. split; [reflexivity |]. intros k. rewrite lookup_empty. discriminate.
  - intros i x m r Hi IH. destruct (decide (x = h)) as [-> | Hne].
    + right. split; [| exists i; apply lookup_insert_eq].
      rewrite list_lookup_alter_eq.
      destruct IH as [[-> _] | [-> _]]; [reflexivity |].
      destruct (objs !! h); reflexivity.
    + rewrite list_lookup_alter_ne by assumption.
      destruct IH as [[Hr Hno] | [Hr (k & Hk)]].
      * left. split; [exact Hr |]. intros k.
        destruct (decide (i = k)) as [-> | Hik].
        -- rewrite lookup_insert_eq. congruence.
        -- rewrite lookup_insert_ne by assumption. apply Hno.
      * right. split; [exact Hr |]. exists k.
        rewrite lookup_insert_ne; [exact Hk |]. intros ->. congruence.
Qed.

Lemma detachAll_length (registry : gmap string nat) (objs : list Marker) :
  length (detachAll registry objs) = length objs.
Proof.
  unfold detachAll.
  apply (map_fold_weak_ind
           (fun (r : list Marker) (m : gmap string nat) => length r = length objs));
    [reflexivity |].
  intros i x m r _ IH. rewrite length_alter. exact IH.
Qed.

Lemma addMarker_objs (objs : list Marker) (registry : gmap string nat)
      (schools : list School) :
  fst (foldl addMarker (objs, registry) schools) =
  (objs ++ (newMarker <$> schools))%list.
Proof.
  induction schools as [|school schools IH] using rev_ind.
  - simpl. rewrite app_nil_r. reflexivity.
  - rewrite foldl_app. simpl.
    destruct (foldl addMarker (objs, registry) schools) as [o r]. simpl in *.
    rewrite IH, fmap_app, app_assoc. reflexivity.
Qed.

(** The registry after the loop: the last school with a given id owns the
    entry; other keys are as before. *)
Lemma addMarker_registry (objs : list Marker) (registry : gmap string nat)
      (schools : list School) (k : string) :
  (snd (foldl addMarker (objs, registry) schools) !! k = registry !! k /\
   k ∉ id <$> schools) \/
  (exists i school,
     schools !! i = Some school /\ id school = k /\
     (forall j other, i < j -> schools !! j = Some other -> id other <> k) /\
     snd (foldl addMarker (objs, registry) schools) !! k = Some (length objs + i)).
Proof.
  induction schools as [|school schools IH] using rev_ind.
  - left. split; [reflexivity |]. simpl. apply not_elem_of_nil.
  - rewrite foldl_app. simpl.
    pose proof (addMarker_objs objs registry schools) as Hobjs.
    destruct (foldl addMarker (objs, registry) schools) as [o r]. simpl in *.
    subst o. rewrite length_app, length_fmap.
    destruct (decide (id school = k)) as [Hk | Hk].
    + right. exists (length schools), school. repeat split.
      * rewrite lookup_app_r, Nat.sub_diag by lia. reflexivity.
      * exact Hk.
      * intros j other Hj Hother. apply lookup_lt_Some in Hother.
        rewrite length_app in Hother. simpl in Hother. lia.
      * rewrite Hk. apply lookup_insert_eq.
    + rewrite lookup_insert_ne by assumption.
      destruct IH as [[Hr Hnot] | (i & s & Hi & Hid & Hlast & Hr)].
      * left. split; [exact Hr |]. rewrite fmap_app. simpl.
        intros Hin. apply list_elem_of_In, in_app_or in Hin as [Hin | [Hin | []]].
        -- apply Hnot, list_elem_of_In, Hin.
        -- congruence.
      * right. exists i, s. repeat split.
        -- rewrite lookup_app_l by (eapply lookup_lt_Some; eassumption). exact Hi.
        -- exact Hid.
        -- intros j other Hj Hother.
           destruct (decide (j < length schools)) as [Hlt | Hge].
           ++ rewrite lookup_app_l in Hother by assumption. eapply Hlast; eassumption.
           ++ rewrite lookup_app_r in Hother by lia.
              destruct (j - length schools) as [|n]; simpl in Hother;
                [congruence | discriminate].
        -- exact Hr.
Qed.

Lemma markersEffect_unfold (schools : list School) (a : Adapter) (g : GoogleMap) :
  map a = Some g -> schools <> [] ->
  markersEffect schools a =
  let acc := foldl addMarker (detachAll (markersRef a) (markers a), ∅) schools in
  {| map := map a; infoWindowRef := infoWindowRef a;
     markers := fst acc; markersRef := snd acc; reported := reported a |}.
Proof.
  intros Hmap Hne. unfold markersEffect. rewrite Hmap.
  destruct schools as [|school schools]; [congruence |].
  destruct (foldl addMarker _ (school :: schools)); reflexivity.
Qed.

(** [registryValid] holds when the component mounts and every effect and
    listener keeps it. *)
Lemma registryValid_unmounted : registryValid unmounted.
Proof. intros k h Hk. simpl in Hk. rewrite lookup_empty in Hk. discriminate. Qed.

Lemma registryValid_initEffect (a : Adapter) :
  registryValid a -> registryValid (initEffect a).
Proof. unfold initEffect. destruct (map a); intros H; exact H. Qed.

Lemma registryValid_markersEffect (schools : list School) (a : Adapter) :
  registryValid a -> registryValid (markersEffect schools a).
Proof.
  intros Hvalid. destruct (map a) as [g|] eqn:Hmap;
    [| unfold markersEffect; rewrite Hmap; exact Hvalid].
  destruct schools as [|school schools];
    [unfold markersEffect; rewrite Hmap; exact Hvalid |].
  rewrite (markersEffect_unfold (school :: schools) a g Hmap) by discriminate.
  intros k h. cbn [markersRef markers]. rewrite addMarker_objs, length_app, length_fmap.
  destruct (addMarker_registry (detachAll (markersRef a) (markers a)) ∅
              (school :: schools) k)
    as [[-> _] | (i & s & Hi & _ & _ & ->)].
  - rewrite lookup_empty. discriminate.
  - intros [= <-]. apply lookup_lt_Some in Hi. lia.
Qed.

Lemma registryValid_selectionEffect (selectedSchool : option School) (a : Adapter) :
  registryValid a -> registryValid (selectionEffect selectedSchool a).
Proof.
  intros Hvalid. unfold selectionEffect.
  destruct (map a); [| exact Hvalid].
  destruct selectedSchool as [school|]; [| exact Hvalid].
  destruct (markersRef a !! id school) as [h|]; [| exact Hvalid].
  unfold click. simpl. destruct (markers a !! h); exact Hvalid.
Qed.

(** C8 fails as stated: when the collection is replaced by an empty one,
    the markers drawn before stay on the map and in the registry. *)
Lemma markers_stay_when_collection_is_emptied :
  let a := markersEffect [] Samples.drawn in
  markersRef a !! id Samples.lincoln = Some 0 /\
  onMap <$> markers a !! 0 = Some true /\
  markersRef a !! id Samples.roosevelt = Some 1 /\
  onMap <$> markers a !! 1 = Some true.
Proof. vm_compute. repeat split. Qed.

(** C8, amended: every time the map exists and the collection is replaced
    by a non-empty one, every marker named by the registry is taken off
    the map and leaves the registry, and one fresh marker is created per
    entity of the new collection, in order, on the map, and registered
    under the entity's id (the last entity owning an id when two share
    it); with an empty collection, or before the map exists, the effect
    changes nothing. *)
Theorem markersEffect_redraws :
  (forall a, markersEffect [] a = a) /\
  (forall schools a, map a = None -> markersEffect schools a = a) /\
  (forall schools a g,
     map a = Some g -> schools <> [] -> registryValid a ->
     let a' := markersEffect schools a in
     (forall k h,
        markersRef a !! k = Some h ->
        onMap <$> markers a' !! h = Some false /\
        forall k', markersRef a' !! k' <> Some h) /\
     length (markers a') = length (markers a) + length schools /\
     (forall i school,
        schools !! i = Some school ->
        markers a' !! (length (markers a) + i) = Some (newMarker school) /\
        onMap (newMarker school) = true /\
        position (newMarker school) = (latitude school, longitude school)) /\
     (forall k, is_Some (markersRef a' !! k) <-> k ∈ id <$> schools) /\
     (forall i school,
        schools !! i = Some school ->
        (forall j other, i < j -> schools !! j = Some other -> id other <> id school) ->
        markersRef a' !! id school = Some (length (markers a) + i)) /\
     map a' = map a /\ infoWindowRef a' = infoWindowRef a).
Proof.
  split; [| split].
  - intros a. unfold markersEffect. destruct (map a); reflexivity.
  - intros schools a Hmap. unfold markersEffect. rewrite Hmap. reflexivity.
  - intros schools a g Hmap Hne Hvalid a'. subst a'.
    rewrite (markersEffect_unfold schools a g Hmap Hne). simpl.
    set (cleared := detachAll (markersRef a) (markers a)).
    pose proof (addMarker_objs cleared ∅ schools) as Hobjs.
    pose proof (detachAll_length (markersRef a) (markers a)) as Hlen.
    fold cleared in Hlen. rewrite Hobjs.
    split; [| split; [| split; [| split; [| split; [| split]]]]].
    + intros k h Hk. pose proof (Hvalid k h Hk) as Hlt. split.
      * rewrite lookup_app_l by lia. unfold cleared.
        destruct (detachAll_lookup (markersRef a) (markers a) h)
          as [[_ Hno] | [-> _]]; [exfalso; apply (Hno k Hk) |].
        destruct (lookup_lt_is_Some_2 (markers a) h Hlt) as [m ->]. reflexivity.
      * intros k' Hk'.
        destruct (addMarker_registry cleared ∅ schools k')
          as [[Hr _] | (i & s & _ & _ & _ & Hr)]; rewrite Hr in Hk'.
        -- rewrite lookup_empty in Hk'. discriminate.
        -- injection Hk' as <-. lia.
    + rewrite length_app, length_fmap. lia.
    + intros i school Hi. split; [| split; reflexivity].
      rewrite lookup_app_r by lia.
      replace (length (markers a) + i - length cleared) with i by lia.
      rewrite list_lookup_fmap, Hi. reflexivity.
    + intros k.
      destruct (addMarker_registry cleared ∅ schools k)
        as [[Hr Hnot] | (i & s & Hi & Hid & _ & Hr)]; rewrite Hr.
      * rewrite lookup_empty. split; [intros [? ?]; discriminate | contradiction].
      * split; [intros _ | eauto]. apply list_elem_of_fmap. exists s.
        split; [congruence |]. eapply list_elem_of_lookup_2. exact Hi.
    + intros i school Hi Hlast.
      destruct (addMarker_registry cleared ∅ schools (id school))
        as [[_ Hnot] | (i' & s & Hi' & Hid & Hlast' & Hr)].
      * exfalso. apply Hnot, list_elem_of_fmap. exists school.
        split; [reflexivity |]. eapply list_elem_of_lookup_2. exact Hi.
      * rewrite Hr, Hlen. f_equal. f_equal.
        destruct (Nat.lt_trichotomy i' i) as [Hlt | [-> | Hgt]]; [| reflexivity |].
        -- exfalso. apply (Hlast' i school Hlt Hi). reflexivity.
        -- exfalso. apply (Hlast i' s Hgt Hi'). exact Hid.
    + reflexivity.
    + reflexivity.
Qed.

Lemma markersEffect_redraws_witness :
  let a' := markersEffect [Samples.lincolnMiddle] Samples.drawn in
  (onMap <$> markers a' !! 0 = Some false /\
   forall k', markersRef a' !! k' <> Some 0) /\
  length (markers a') = 2 + 1 /\
  markersRef a' !! id Samples.lincolnMiddle = Some (2 + 0).
Proof.
  pose proof (proj2 (proj2 markersEffect_redraws)
                [Samples.lincolnMiddle] Samples.drawn
                {| center := MAP_CENTER; zoom := MAP_ZOOM |}) as H.
  destruct H as (Hold & Hlen & _ & _ & Hreg & _).
  - reflexivity.
  - discriminate.
  - intros k h Hk.
    assert (Hh : h = 0 \/ h = 1).
    { change (markersRef Samples.drawn)
        with (<[id Samples.roosevelt := 1]>
                (<[id Samples.lincoln := 0]> (∅ : gmap string nat))) in Hk.
      apply lookup_insert_Some in Hk as [[_ <-] | [_ Hk]]; [auto |].
      apply lookup_insert_Some in Hk as [[_ <-] | [_ Hk]]; [auto |].
      rewrite lookup_empty in Hk. discriminate. }
    change (length (markers Samples.drawn)) with 2. lia.
  - split; [| split].
    + apply (Hold (id Samples.lincoln) 0). reflexivity.
    + exact Hlen.
    + apply (Hreg 0 Samples.lincolnMiddle); [reflexivity |].
      intros j other Hj Hother. destruct j; [lia | discriminate].
Defined.

(** C9: the selection effect is idempotent: running it a second time for
    the same selection leaves the map, the popup, the markers, the
    registry and the selection reported to the controller as the first run
    left them; for an entity whose marker is registered, a run centres the
    map on the entity's coordinates, sets zoom 15 and opens the popup on
    that marker with the marker's content. *)
Theorem selectionEffect_idempotent :
  (forall selectedSchool a,
     selectionEffect selectedSchool (selectionEffect selectedSchool a) =
     selectionEffect selectedSchool a) /\
  (forall school a g h m,
     map a = Some g ->
     markersRef a !! id school = Some h ->
     markers a !! h = Some m ->
     let a' := selectionEffect (Some school) a in
     map a' = Some {| center := (latitude school, longitude school); zoom := 15 |} /\
     infoWindowRef a' =
       (fun _ => {| content := Some (listenerContent m); anchor := Some h |})
         <$> infoWindowRef a /\
     reported a' = Some (listenerSchool m) /\
     markers a' = markers a /\ markersRef a' = markersRef a).
Proof.
  split.
  - intros [school|] a; unfold selectionEffect;
      [| destruct (map a) eqn:Hmap; rewrite Hmap; reflexivity].
    destruct (map a) as [g|] eqn:Hmap; [| rewrite Hmap; reflexivity].
    destruct (markersRef a !! id school) as [h|] eqn:Hreg;
      [| rewrite Hmap, Hreg; reflexivity].
    unfold click. simpl. destruct (markers a !! h) as [m|] eqn:Hm; simpl.
    + rewrite Hmap, Hreg, Hm. simpl.
      destruct (infoWindowRef a); reflexivity.
    + rewrite Hmap, Hreg, Hm. unfold setZoom, panTo. simpl.
      rewrite Hmap. reflexivity.
  - intros school a g h m Hmap Hreg Hm a'. subst a'. unfold selectionEffect.
    rewrite Hmap, Hreg. unfold click. simpl. rewrite Hm. simpl.
    rewrite Hmap. repeat split.
Qed.

Lemma selectionEffect_idempotent_witness :
  let once := selectionEffect (Some Samples.roosevelt) Samples.drawn in
  selectionEffect (Some Samples.roosevelt) once = once /\
  map once = Some {| center := (latitude Samples.roosevelt,
                                longitude Samples.roosevelt); zoom := 15 |} /\
  (anchor <$> infoWindowRef once) = Some (Some 1).
Proof.
  split; [apply (proj1 selectionEffect_idempotent) |].
  destruct (proj2 selectionEffect_idempotent Samples.roosevelt Samples.drawn
              {| center := MAP_CENTER; zoom := MAP_ZOOM |} 1
              (newMarker Samples.roosevelt))
    as (Hmap & Hinfo & _); [reflexivity .. |].
  split; [exact Hmap |]. rewrite Hinfo. reflexivity.
Defined.

End MapAdapterClaims.

(** ** More on the record mapper *)

Section MapperMore.
Import Mapper CSV_COLUMN_NAMES.

Lemma orElse_nonempty (v : option string) (d : string) :
  d <> EmptyString -> orElse v d <> EmptyString.
Proof.
  intros Hd. destruct v as [[|c s]|]; simpl; [exact Hd | discriminate | exact Hd].
Qed.

Lemma mapRow_lines_length (row : Row) (index : nat) :
  length (fst (mapRow row index)) = if excluded row then 1 else 0.
Proof.
  pose proof (mapRow_None row index) as Hnone.
  unfold mapRow in *. destruct (isNaN _ || isNaN _).
  - simpl in *. rewrite (proj1 Hnone) by reflexivity. reflexivity.
  - destruct (matchStatus _); simpl in *.
    + destruct (excluded row); [| reflexivity].
      pose proof (proj2 Hnone eq_refl). discriminate.
    + rewrite (proj1 Hnone) by reflexivity. reflexivity.
Qed.

Lemma concat_imap_length {A B W : Type} (f : nat -> A -> list W * B)
      (skip : A -> bool) (l : list A) :
  (forall i x, length (fst (f i x)) = if skip x then 1 else 0) ->
  length (concat (fst <$> imap f l)) = length (List.filter skip l).
Proof.
  revert f. induction l as [|x l IH]; intros f Hf; [reflexivity |].
  change (imap f (x :: l)) with (f 0 x :: imap (f ∘ S) l).
  rewrite fmap_cons, concat_cons, length_app, Hf, (IH (f ∘ S)) by (intros; apply Hf).
  simpl. destruct (skip x); reflexivity.
Qed.

Lemma fetchSchoolData_complete (data : list Row) :
  fetchSchoolData (PapaComplete data) =
  (fst (complete data), Resolved (snd (complete data))).
Proof. simpl. destruct (complete data). reflexivity. Qed.

(** X1: every skipped row puts exactly one line on the console and an
    accepted row none, so the number of warnings is the number of rows
    skipped, and warnings plus entities count the rows; a row failing on
    both counts is reported for its coordinates only. *)
Theorem one_warning_per_skipped_row (data : list Row) :
  let lines := fst (fetchSchoolData (PapaComplete data)) in
  (forall result,
     snd (fetchSchoolData (PapaComplete data)) = Resolved result ->
     length lines + length result = length data) /\
  length lines = length (List.filter excluded data) /\
  (forall index row,
     data !! index = Some row ->
     length (fst (mapRow row index)) = if excluded row then 1 else 0) /\
  (forall index row,
     invalidLatLng row = true -> unrecognizedStatus row = true ->
     fst (mapRow row index) =
       ["Skipping row " ++ ofNat (index + 2) ++ " due to invalid latitude/longitude."]) /\
  (forall index row,
     invalidLatLng row = false -> unrecognizedStatus row = true ->
     fst (mapRow row index) =
       ["Skipping row " ++ ofNat (index + 2) ++ " due to unrecognized status: " ++
        dq ++ trim (orElse (row !! STATUS) EmptyString) ++ dq]).
Proof.
  assert (Hlines : length (fst (complete data)) = length (List.filter excluded data)).
  { unfold complete, mapRows. simpl. apply concat_imap_length.
    intros i x. apply mapRow_lines_length. }
  intros lines. subst lines. rewrite fetchSchoolData_complete. cbn [fst snd].
  split; [| split; [exact Hlines | split; [| split]]].
  - intros r [= <-]. pose proof (complete_length data) as Hlen.
    change (omap snd (mapRows data)) with (snd (complete data)). lia.
  - intros index row _. apply mapRow_lines_length.
  - intros index row Hll _. rewrite (mapRow_invalidLatLng row index Hll). reflexivity.
  - intros index row Hll Hst. unfold mapRow. unfold invalidLatLng in Hll.
    rewrite Hll. unfold unrecognizedStatus, sheetStatusOf in Hst.
    apply negb_true_iff, bool_decide_eq_false in Hst.
    apply matchStatus_None in Hst. rewrite Hst. reflexivity.
Qed.

(** *** Identifiers *)

Lemma digits_no_dash (d : Decimal.uint) :
  countChar "-"%char (NilEmpty.string_of_uint d) = 0.
Proof. induction d; simpl; auto. Qed.

Lemma ofNat_no_dash (n : nat) : countChar "-"%char (ofNat n) = 0.
Proof.
  unfold ofNat, NilZero.string_of_uint.
  destruct (Nat.to_uint n); try apply digits_no_dash. reflexivity.
Qed.

Lemma ofNat_inj (n n' : nat) : ofNat n = ofNat n' -> n = n'.
Proof.
  unfold ofNat. intros H.
  assert (Hnil : forall k, Nat.to_uint k <> Decimal.Nil).
  { intros k Hk. pose proof (DecimalNat.Unsigned.of_to k) as Hof.
    rewrite Hk in Hof. simpl in Hof. subst k. discriminate. }
  apply DecimalNat.Unsigned.to_uint_inj.
  pose proof (NilZero.usu _ (Hnil n)) as H1.
  pose proof (NilZero.usu _ (Hnil n')) as H2.
  rewrite H in H1. congruence.
Qed.

(** The text after the last occurrence of a character is determined by the
    whole string. *)
Lemma last_segment_inj (c : ascii) (p1 p2 t1 t2 : string) :
  p1 ++ String c t1 = p2 ++ String c t2 ->
  countChar c t1 = 0 -> countChar c t2 = 0 -> t1 = t2.
Proof.
  revert p2. induction p1 as [|a p1 IH]; intros [|b p2] Heq H1 H2.
  - change (String c t1 = String c t2) in Heq. congruence.
  - change (String c t1 = String b (p2 ++ String c t2)) in Heq.
    injection Heq as _ Heq.
    rewrite Heq, countChar_app in H1. simpl in H1. rewrite Ascii.eqb_refl in H1. lia.
  - change (String a (p1 ++ String c t1) = String c t2) in Heq.
    injection Heq as _ Heq.
    rewrite <- Heq, countChar_app in H2. simpl in H2. rewrite Ascii.eqb_refl in H2. lia.
  - rewrite !append_cons in Heq. injection Heq as _ Heq. eapply IH; eassumption.
Qed.

Lemma mapRow_id_index (row row' : Row) (i j : nat) (s s' : School) :
  snd (mapRow row i) = Some s -> snd (mapRow row' j) = Some s' ->
  id s = id s' -> i = j.
Proof.
  intros Hs Hs' Hid.
  destruct (mapRow row i) as [w o] eqn:Hm. simpl in Hs. subst o.
  destruct (mapRow row' j) as [w' o'] eqn:Hm'. simpl in Hs'. subst o'.
  apply mapRow_Some in Hm as (_ & _ & _ & _ & _ & _ & _ & Hi).
  apply mapRow_Some in Hm' as (_ & _ & _ & _ & _ & _ & _ & Hj).
  rewrite Hi, Hj in Hid.
  change ("-" ++ ofNat i) with (String "-"%char (ofNat i)) in Hid.
  change ("-" ++ ofNat j) with (String "-"%char (ofNat j)) in Hid.
  rewrite <- !append_assoc in Hid.
  apply last_segment_inj in Hid; try apply ofNat_no_dash.
  apply ofNat_inj. exact Hid.
Qed.

Lemma omap_imap_NoDup {A B W K : Type} (f : nat -> A -> W * option B)
      (key : B -> K) (l : list A) :
  (forall i j x y b c,
     snd (f i x) = Some b -> snd (f j y) = Some c -> key b = key c -> i = j) ->
  NoDup (key <$> omap snd (imap f l)).
Proof.
  revert f. induction l as [|x l IH]; intros f Hf; [constructor |].
  change (omap snd (imap f (x :: l)))
    with (match snd (f 0 x) with
          | Some y => y :: omap snd (imap (f ∘ S) l)
          | None => omap snd (imap (f ∘ S) l)
          end).
  assert (Hrest : NoDup (key <$> omap snd (imap (f ∘ S) l))).
  { apply IH. intros i j a b' b c Hb Hc Hk.
    pose proof (Hf (S i) (S j) a b' b c Hb Hc Hk). lia. }
  destruct (snd (f 0 x)) as [b|] eqn:Hb; [| exact Hrest].
  rewrite fmap_cons. apply NoDup_cons. split; [| exact Hrest].
  intros Hin. apply list_elem_of_fmap in Hin as (c & Hk & Hc).
  apply list_elem_of_omap in Hc as (y & Hy & Hc).
  apply elem_of_lookup_imap in Hy as (j & a & -> & _).
  pose proof (Hf 0 (S j) x a b c Hb Hc Hk). discriminate.
Qed.

(** X2: the identifiers of one load are pairwise distinct, because an
    identifier ends with the index of its row: two accepted rows with the
    same identifier sit at the same index. *)
Theorem fetchSchoolData_ids_distinct
        (papa : PapaOutcome) (lines : list string) (result : list School) :
  fetchSchoolData papa = (lines, Resolved result) ->
  NoDup (id <$> result) /\
  (forall row row' i j s s',
     snd (mapRow row i) = Some s -> snd (mapRow row' j) = Some s' ->
     id s = id s' -> i = j).
Proof.
  intros Hfetch. apply fetchSchoolData_Resolved in Hfetch as (data & -> & Hc).
  split; [| apply mapRow_id_index].
  replace result with (snd (complete data)) by (rewrite Hc; reflexivity).
  unfold complete, mapRows. simpl. apply omap_imap_NoDup.
  intros i j x y b c. apply mapRow_id_index.
Qed.

Lemma fetchSchoolData_ids_distinct_witness :
  NoDup (id <$> snd (complete Samples.sheet)).
Proof.
  apply (fetchSchoolData_ids_distinct (PapaComplete Samples.sheet)
           (fst (complete Samples.sheet)) (snd (complete Samples.sheet))).
  vm_compute. reflexivity.
Defined.

(** X3: no text shown in a popup is empty: an accepted row always yields a
    non-empty identifier, name, address, designation and district, whatever
    cells are missing. *)
Theorem mapRow_fields_nonempty
        (row : Row) (index : nat) (lines : list string) (s : School) :
  mapRow row index = (lines, Some s) ->
  id s <> EmptyString /\ name s <> EmptyString /\ address s <> EmptyString /\
  administrativeDesignation s <> EmptyString /\ district s <> EmptyString.
Proof.
  unfold mapRow. destruct (isNaN _ || isNaN _); [discriminate |].
  destruct (matchStatus _); [| discriminate]. intros [= _ <-]. simpl.
  repeat split; try (apply orElse_nonempty; discriminate).
  - intros H. apply append_empty_inv in H as [_ H]. discriminate.
  - destruct (truthy (fullAddress _ _ _ _)) eqn:Ht; [| discriminate].
    apply truthy_true. exact Ht.
Qed.

Lemma mapRow_fields_nonempty_witness :
  exists s, snd (mapRow Samples.noAddress 6) = Some s /\
            address s <> EmptyString /\ district s <> EmptyString.
Proof.
  eexists. split; [vm_compute; reflexivity |].
  destruct (mapRow_fields_nonempty Samples.noAddress 6 [] _ ltac:(vm_compute; reflexivity))
    as (_ & _ & Ha & _ & Hd).
  split; [exact Ha | exact Hd].
Defined.

(** X4: rows are mapped one by one, in order: every entity and every
    warning of a sheet is found at the same place in the result for the same
    sheet with rows appended, so appending rows changes no earlier entity or
    identifier; each appended row adds at most one entity. *)
Theorem appended_rows_keep_earlier_entities (data more : list Row) :
  (forall i s, snd (complete data) !! i = Some s ->
               snd (complete (data ++ more)) !! i = Some s) /\
  (forall i line, fst (complete data) !! i = Some line ->
                  fst (complete (data ++ more)) !! i = Some line) /\
  snd (complete (data ++ more)) =
    (snd (complete data) ++
     omap snd (imap (fun i row => mapRow row (length data + i)) more))%list /\
  length (snd (complete (data ++ more))) <= length (snd (complete data)) + length more.
Proof.
  assert (Hl : fst (complete (data ++ more)) =
               (fst (complete data) ++
                concat (fst <$> imap (fun i row => mapRow row (length data + i)) more))%list).
  { unfold complete, mapRows. simpl. rewrite imap_app, fmap_app, concat_app.
    reflexivity. }
  assert (Hr : snd (complete (data ++ more)) =
               (snd (complete data) ++
                omap snd (imap (fun i row => mapRow row (length data + i)) more))%list).
  { unfold complete, mapRows. simpl. rewrite imap_app, omap_app. reflexivity. }
  split; [| split; [| split; [exact Hr |]]].
  - intros i s Hi. rewrite Hr. apply lookup_app_l_Some. exact Hi.
  - intros i line Hi. rewrite Hl. apply lookup_app_l_Some. exact Hi.
  - rewrite Hr, length_app.
    pose proof (omap_imap_length (fun i row => mapRow row (length data + i))
                  excluded more (fun i row => mapRow_None row (length data + i))).
    lia.
Qed.

End MapperMore.

(** ** More on the application controller *)

Section AppMore.
Import Mapper App Page.

(** *** Waiting *)

Lemma poll_rejects (name : string) (avail : nat -> bool) :
  forall fuel t attempts,
    attempts <= maxAttempts -> maxAttempts - attempts < fuel ->
    (forall k, t < k <= t + (maxAttempts - attempts) + 1 -> avail k = false) ->
    poll name avail fuel t attempts =
    Some (Rejected (libraryError name), t + (maxAttempts - attempts) + 1).
Proof.
  unfold maxAttempts.
  induction fuel as [|fuel IH]; intros t attempts Hle Hfuel Hno; [lia |].
  simpl. unfold tick. rewrite (Hno (S t)) by lia. unfold maxAttempts.
  destruct (Nat.ltb_spec 50 (S attempts)).
  - do 3 f_equal. lia.
  - rewrite IH; try lia.
    + do 3 f_equal. lia.
    + intros k Hk. apply Hno. lia.
Qed.

(** X5: [waitForLibrary] resolves at the first check at which the global is
    defined, provided that is one of the first 51 checks, and one interval
    after it was called at the earliest, even for a library already on the
    page; when the global is missing at each of the first 51 checks it
    rejects at the 51st, whether or not the library arrives later. *)
Theorem waitForLibrary_first_check
        (name : string) (avail : nat -> bool) (fuel t : nat) :
  maxAttempts < fuel ->
  (forall g,
     1 <= g <= maxAttempts + 1 ->
     avail (t + g) = true ->
     (forall k, t < k < t + g -> avail k = false) ->
     waitForLibrary name avail fuel t = Some (Resolved tt, t + g)) /\
  ((forall k, avail k = true) ->
   waitForLibrary name avail fuel t = Some (Resolved tt, t + 1)) /\
  ((forall k, t < k <= t + (maxAttempts + 1) -> avail k = false) ->
   waitForLibrary name avail fuel t =
     Some (Rejected ("The '" ++ name ++
                     "' library failed to load from the CDN, please check your network connection."),
           t + (maxAttempts + 1))).
Proof.
  intros Hfuel. unfold waitForLibrary. split; [| split].
  - intros g Hg Hyes Hno. apply poll_resolves; try assumption; lia.
  - intros Hall. apply poll_resolves; try lia. apply Hall.
  - intros Hno. rewrite poll_rejects; try lia.
    + unfold maxAttempts. replace (t + (50 - 0) + 1) with (t + (50 + 1)) by lia.
      reflexivity.
    + intros k Hk. apply Hno. unfold maxAttempts in *. lia.
Qed.

Lemma waitForLibrary_first_check_witness :
  waitForLibrary "Papa" (fun k => (3 <=? k)%nat) 60 0 = Some (Resolved tt, 0 + 3) /\
  waitForLibrary "Papa" MoreSamples.papaLate 60 0 =
    Some (Rejected (libraryError "Papa"), 0 + (maxAttempts + 1)).
Proof.
  pose proof (waitForLibrary_first_check "Papa" (fun k => (3 <=? k)%nat) 60 0
                ltac:(unfold maxAttempts; lia)) as (H1 & _ & _).
  pose proof (waitForLibrary_first_check "Papa" MoreSamples.papaLate 60 0
                ltac:(unfold maxAttempts; lia)) as (_ & _ & H3).
  split.
  - apply (H1 3); [unfold maxAttempts; lia | reflexivity |].
    intros k Hk. destruct k as [|[|[|k]]]; try reflexivity; lia.
  - apply H3. intros k Hk. unfold MoreSamples.papaLate, maxAttempts in *.
    apply Nat.leb_gt. lia.
Defined.

(** *** Loads that reach the parser *)

(** The global is first defined at check [g] after tick [t]. *)
Lemma loadData_try_ready (env : Environment) (fuel g p : nat) :
  maxAttempts < fuel ->
  1 <= g <= maxAttempts + 1 ->
  googleDefined env g = true ->
  (forall k, 0 < k < g -> googleDefined env k = false) ->
  mapsDefined env g = true ->
  1 <= p <= maxAttempts + 1 ->
  papaDefined env (g + p) = true ->
  (forall k, g < k < g + p -> papaDefined env k = false) ->
  loadData_try env fuel =
  Some (snd (fetchSchoolData (papa env)), g + p, fst (fetchSchoolData (papa env))).
Proof.
  intros Hfuel Hg Hgy Hgn Hmaps Hp Hpy Hpn. unfold loadData_try, waitForLibrary.
  rewrite (poll_resolves "google" (googleDefined env) fuel 0 0 g)
    by (try lia; try assumption; intros k Hk; apply Hgn; lia).
  simpl. rewrite Hmaps. simpl.
  rewrite (poll_resolves "Papa" (papaDefined env) fuel g 0 p)
    by (try lia; assumption).
  destruct (fetchSchoolData (papa env)). reflexivity.
Qed.

(** *** What the remediation hint depends on *)

(** X7: when the download or the parsing fails, the page shows the message
    of the parser behind a fixed sentence, and the remediation is picked by
    the words of that message alone: the API-key hint when it mentions
    google or Google, the PapaParse hint when it mentions Papa, and the
    sheet-URL hint otherwise. *)
Theorem loadData_fetch_failure
        (env : Environment) (st : AppState) (fuel g p : nat) (failure : string) :
  maxAttempts < fuel ->
  1 <= g <= maxAttempts + 1 ->
  googleDefined env g = true ->
  (forall k, 0 < k < g -> googleDefined env k = false) ->
  mapsDefined env g = true ->
  1 <= p <= maxAttempts + 1 ->
  papaDefined env (g + p) = true ->
  (forall k, g < k < g + p -> papaDefined env k = false) ->
  papa env = PapaError failure ->
  exists st',
    loadData env fuel st = Some (st', g + p) /\
    error st' =
      Some {| message := "Could not fetch or parse CSV file from URL. " ++ failure;
              details :=
                if includes failure "google" || includes failure "Google"
                then MapsApiKeyHint
                else if includes failure "Papa" then PapaParseHint
                else SheetUrlHint |} /\
    isLoading st' = false /\ lastUpdated st' = None /\ schools st' = schools st.
Proof.
  intros Hfuel Hg Hgy Hgn Hmaps Hp Hpy Hpn Hpapa.
  pose proof (loadData_try_ready env fuel g p Hfuel Hg Hgy Hgn Hmaps Hp Hpy Hpn) as Htry.
  rewrite Hpapa in Htry. cbn [fetchSchoolData fst snd] in Htry.
  unfold loadData. rewrite Htry. eexists. split; [reflexivity |].
  split; [| repeat split]. cbn [loadData_end error setIsLoading setLastUpdated setError].
  unfold classify. reflexivity.
Qed.

Lemma loadData_fetch_failure_witness :
  exists st',
    loadData MoreSamples.downloadFails 60 Samples.ready = Some (st', 1 + 1) /\
    details <$> error st' = Some SheetUrlHint.
Proof.
  destruct (loadData_fetch_failure MoreSamples.downloadFails Samples.ready 60 1 1
              "Network Error")
    as (st' & Hload & Herr & _).
  all: try reflexivity.
  all: try (unfold maxAttempts; lia).
  exists st'. split; [exact Hload |]. rewrite Herr. reflexivity.
Defined.

(** X8: when the [google] global is defined but [google.maps] is not, the
    load fails at that very check with the message about the maps object
    and the API-key hint, without waiting for PapaParse and without
    fetching. *)
Theorem loadData_maps_missing
        (env : Environment) (st : AppState) (fuel g : nat) :
  maxAttempts < fuel ->
  1 <= g <= maxAttempts + 1 ->
  googleDefined env g = true ->
  (forall k, 0 < k < g -> googleDefined env k = false) ->
  mapsDefined env g = false ->
  loadData_try env fuel =
    Some (Rejected "Google Maps API script loaded, but maps object is not available.",
          g, []) /\
  exists st',
    loadData env fuel st = Some (st', g) /\
    error st' =
      Some {| message := "Google Maps API script loaded, but maps object is not available.";
              details := MapsApiKeyHint |} /\
    isLoading st' = false /\ schools st' = schools st.
Proof.
  intros Hfuel Hg Hgy Hgn Hmaps.
  assert (Htry : loadData_try env fuel = Some (Rejected mapsMissing, g, [])).
  { unfold loadData_try, waitForLibrary.
    rewrite (poll_resolves "google" (googleDefined env) fuel 0 0 g)
      by (try lia; try assumption; intros k Hk; apply Hgn; lia).
    simpl. rewrite Hmaps. reflexivity. }
  split; [exact Htry |]. unfold loadData. rewrite Htry.
  eexists. split; [reflexivity |]. repeat split.
Qed.

Lemma loadData_maps_missing_witness :
  exists st',
    loadData MoreSamples.mapsMissing 60 Samples.ready = Some (st', 2) /\
    details <$> error st' = Some MapsApiKeyHint.
Proof.
  destruct (loadData_maps_missing MoreSamples.mapsMissing Samples.ready 60 2)
    as (_ & st' & Hload & Herr & _).
  all: try reflexivity.
  all: try (unfold maxAttempts; lia).
  all: try (intros k Hk; destruct k as [|[|k]]; try reflexivity; lia).
  exists st'. split; [exact Hload |]. rewrite Herr. reflexivity.
Defined.

(** *** The states of the page *)

Lemma reachable_phase (c : Controller) :
  reachable c ->
  (exists cycle, inFlight c = [cycle] /\ isLoading (app c) = true /\
                 error (app c) = None) \/
  (inFlight c = [] /\ isLoading (app c) = false /\
   exists e, error (app c) = Some e /\ lastUpdated (app c) = None) \/
  (inFlight c = [] /\ isLoading (app c) = false /\ error (app c) = None /\
   is_Some (lastUpdated (app c))).
Proof.
  induction 1 as [|c ev Hreach IH Hoff].
  - left. exists 0. repeat split.
  - destruct Hoff as [cycle outcome now Hin | Hrefresh | text Hshown | Hshown
                      | school sel Hrender Hin].
    + destruct IH as [(k & Hk & Hl & He) | [(Hk & _) | (Hk & _)]];
        [| rewrite Hk in Hin; inversion Hin ..].
      simpl. rewrite bool_decide_eq_true_2 by assumption. simpl.
      rewrite Hk in Hin |- *. apply list_elem_of_singleton in Hin as ->.
      simpl. rewrite Nat.eqb_refl.
      destruct outcome as [data | msg]; simpl.
      * right. right. rewrite He. repeat split. eauto.
      * right. left. repeat split. eauto.
    + left. exists (begun c). simpl.
      unfold refreshEnabled, controlsShown in Hrefresh.
      destruct IH as [(k & _ & Hl & _) | [(Hk & Hl & e & He & _) | (-> & _)]].
      * rewrite Hl in Hrefresh. discriminate.
      * rewrite Hl, He in Hrefresh. discriminate.
      * repeat split.
    + exact IH.
    + simpl. pose proof (handleSearch_frame (app c)) as (_ & Hl & He & _ & Hu).
      destruct (handleSearch (app c)) as [st lines]. simpl in *.
      rewrite Hl, He, Hu. exact IH.
    + exact IH.
Qed.

(** X9: a page driven through its controls is always in one of three
    states.  Loading: one load in flight, controls hidden, and either the
    spinner (no school yet) or the previous map with the updating badge.
    Error: nothing in flight, the error display, no controls, no time
    stamp.  Ready: nothing in flight, the map, the controls and the time of
    the last load. *)
Theorem page_states (c : Controller) :
  reachable c -> showsLoading c \/ showsError c \/ showsReady c.
Proof.
  intros Hreach.
  destruct (reachable_phase c Hreach)
    as [(k & Hk & Hl & He) | [(Hk & Hl & e & He & Hu) | (Hk & Hl & He & Hu)]].
  - left. exists k. unfold controlsShown, updatingShown, renderContent.
    rewrite Hl, He. repeat split; try assumption.
    destruct (schools (app c)) as [|s l]; [left | right]; simpl; repeat split;
      discriminate.
  - right. left. exists e.
    unfold controlsShown, lastUpdatedShown, updatingShown, renderContent.
    rewrite Hl, He, Hu. simpl. repeat split; assumption.
  - right. right.
    unfold showsReady, controlsShown, lastUpdatedShown, updatingShown, renderContent.
    destruct Hu as [u Hu]. rewrite Hl, He, Hu. simpl. repeat split; assumption.
Qed.

Lemma page_states_witness :
  let c := run [EndLoad 0 (Rejected (libraryError "google")) 0] mounted in
  showsLoading c \/ showsError c \/ showsReady c.
Proof.
  apply page_states. apply reachable_step; [apply reachable_mounted |].
  apply offered_end. apply list_elem_of_here.
Defined.

(** X10: once a load has failed the page offers nothing more: no load is
    in flight, the refresh control and the search form are hidden and the
    map is not rendered, so no event can occur and the error stays until
    the page is reloaded.  While a load is in flight the only things that
    can happen are the end of that load and clicks on the markers of the
    map still shown. *)
Theorem error_state_is_final (c : Controller) :
  reachable c ->
  (is_Some (error (app c)) -> forall ev, ~ offered c ev) /\
  (isLoading (app c) = true ->
   forall ev, offered c ev ->
     (exists cycle outcome now,
        ev = EndLoad cycle outcome now /\ inFlight c = [cycle]) \/
     (exists school, ev = Selected school /\ school ∈ schools (app c))).
Proof.
  intros Hreach.
  pose proof (reachable_phase c Hreach) as Hphase. split.
  - intros [e He] ev Hoff.
    destruct Hphase as [(k & _ & _ & Hn) | [(Hk & Hl & _) | (_ & _ & Hn & _)]];
      try congruence.
    destruct Hoff as [cycle outcome now Hin | Hrefresh | text Hshown | Hshown
                      | school sel Hrender Hin].
    + rewrite Hk in Hin. inversion Hin.
    + unfold refreshEnabled, controlsShown in Hrefresh. rewrite He in Hrefresh.
      cbn in Hrefresh. rewrite andb_false_r in Hrefresh. discriminate.
    + unfold controlsShown in Hshown. rewrite He in Hshown.
      cbn in Hshown. rewrite andb_false_r in Hshown. discriminate.
    + unfold controlsShown in Hshown. rewrite He in Hshown.
      cbn in Hshown. rewrite andb_false_r in Hshown. discriminate.
    + unfold renderContent in Hrender. rewrite Hl, He in Hrender. discriminate.
  - intros Hl ev Hoff.
    destruct Hphase as [(k & Hk & _) | [(_ & Hl' & _) | (_ & Hl' & _)]];
      try congruence.
    destruct Hoff as [cycle outcome now Hin | Hrefresh | text Hshown | Hshown
                      | school sel Hrender Hin].
    + left. exists cycle, outcome, now. split; [reflexivity |].
      rewrite Hk in Hin |- *. apply list_elem_of_singleton in Hin as ->. reflexivity.
    + unfold refreshEnabled, controlsShown in Hrefresh. rewrite Hl in Hrefresh.
      discriminate.
    + unfold controlsShown in Hshown. rewrite Hl in Hshown. discriminate.
    + unfold controlsShown in Hshown. rewrite Hl in Hshown. discriminate.
    + right. exists school. split; [reflexivity | exact Hin].
Qed.

Lemma error_state_is_final_witness :
  let c := run [EndLoad 0 (Rejected (libraryError "google")) 0] mounted in
  ~ offered c BeginLoad.
Proof.
  apply (proj1 (error_state_is_final
                  (run [EndLoad 0 (Rejected (libraryError "google")) 0] mounted)
                  (reachable_step mounted _ reachable_mounted
                     (offered_end mounted 0 _ 0 (list_elem_of_here 0 [])))));
    simpl; eauto.
Defined.

(** X11: the collection changes only when a load in flight ends with
    data, and the selection changes only through a search or a click on a
    marker; in particular no load, successful or not, clears or updates the
    selection. *)
Theorem handlers_frame (c : Controller) (ev : Event) :
  (schools (app (handle ev c)) <> schools (app c) ->
   exists cycle data now,
     ev = EndLoad cycle (Resolved data) now /\ cycle ∈ inFlight c) /\
  (selectedSchool (app (handle ev c)) <> selectedSchool (app c) ->
   ev = SubmitSearch \/ exists school, ev = Selected school) /\
  (searchTerm (app (handle ev c)) <> searchTerm (app c) ->
   exists text, ev = Typed text).
Proof.
  destruct ev as [| cycle [data | msg] now | text | | school]; simpl;
    try (destruct (bool_decide (cycle ∈ inFlight c)) eqn:Hin; simpl;
         [apply bool_decide_eq_true in Hin |]);
    try (pose proof (handleSearch_frame (app c)) as (Hs & _ & _ & Ht & _);
         destruct (handleSearch (app c)) as [st lines]; simpl in *);
    repeat split; intros H; try congruence; eauto 6.
Qed.

Lemma handlers_frame_witness :
  exists cycle data now,
    EndLoad 0 (Resolved [Samples.lincoln]) 5 = EndLoad cycle (Resolved data) now /\
    cycle ∈ inFlight mounted.
Proof.
  apply (proj1 (handlers_frame mounted (EndLoad 0 (Resolved [Samples.lincoln]) 5))).
  simpl. discriminate.
Defined.

(** *** Searching *)

Lemma isWhiteSpace_lowerChar (c : ascii) :
  isWhiteSpace (lowerChar c) = isWhiteSpace c.
Proof. destruct c as [[] [] [] [] [] [] [] []]; reflexivity. Qed.

Lemma blank_toLowerCase (s : string) : blank (toLowerCase s) = blank s.
Proof.
  induction s as [|c s IH]; simpl; [reflexivity |].
  rewrite isWhiteSpace_lowerChar, IH. reflexivity.
Qed.

Lemma truthy_trim (s : string) : truthy (trim s) = negb (blank s).
Proof.
  pose proof (trim_blank s) as H.
  destruct (truthy (trim s)), (blank s); simpl; try reflexivity.
  - pose proof (proj2 H eq_refl). discriminate.
  - pose proof (proj1 H eq_refl). discriminate.
Qed.

(** X12: the search ignores the letter case of what was typed: two inputs
    with the same lower-case form select the same school and clear the
    selection in the same cases. *)
Theorem handleSearch_ignores_case (st : AppState) (typed typed' : string) :
  toLowerCase typed = toLowerCase typed' ->
  selectedSchool (fst (handleSearch (setSearchTerm typed st))) =
  selectedSchool (fst (handleSearch (setSearchTerm typed' st))).
Proof.
  intros Hlow. unfold handleSearch. simpl. rewrite !truthy_trim.
  rewrite <- (blank_toLowerCase typed), <- (blank_toLowerCase typed'), Hlow.
  destruct (negb (negb (blank (toLowerCase typed')))); [reflexivity |].
  destruct (List.find _ (schools st)); reflexivity.
Qed.

Lemma handleSearch_ignores_case_witness :
  selectedSchool (fst (handleSearch (MoreSamples.searching "LiNcOLN"))) =
  selectedSchool (fst (handleSearch (MoreSamples.searching "lincoln"))).
Proof.
  apply (handleSearch_ignores_case Samples.ready "LiNcOLN" "lincoln"). reflexivity.
Defined.

(** X13: a search selects only schools of the collection, and repeating
    the same search changes nothing more (same state, same alert). *)
Theorem handleSearch_selects_member (st : AppState) :
  (forall school, selectedSchool (fst (handleSearch st)) = Some school ->
                  school ∈ schools st /\ nameContains (searchTerm st) school) /\
  handleSearch (fst (handleSearch st)) = handleSearch st.
Proof.
  unfold handleSearch.
  destruct (negb (truthy (trim (searchTerm st)))) eqn:Hb; simpl.
  - rewrite Hb. split; [discriminate | reflexivity].
  - destruct (List.find _ (schools st)) as [x|] eqn:Hfind; simpl;
      rewrite Hb, Hfind; simpl; (split; [| reflexivity]); [| discriminate].
    intros school [= <-]. apply find_some in Hfind as [Hin Hx]. split.
    + apply list_elem_of_In. exact Hin.
    + apply includes_spec. exact Hx.
Qed.

End AppMore.

(** ** More on the map adapter *)

Section MapAdapterMore.
Import MapAdapter AdapterRun.

Lemma filter_onMap_nil (l : list Marker) :
  (forall h m, l !! h = Some m -> onMap m = false) -> List.filter onMap l = [].
Proof.
  induction l as [|m l IH]; intros Hoff; [reflexivity |]. simpl.
  rewrite (Hoff 0 m eq_refl). apply IH. intros h m' Hm. apply (Hoff (S h) m' Hm).
Qed.

Lemma filter_onMap_new (schools : list School) :
  List.filter onMap (newMarker <$> schools) = newMarker <$> schools.
Proof. induction schools as [|s l IH]; simpl; [| f_equal; exact IH]; reflexivity. Qed.

(** After a redraw the old markers are all off the map, provided none was
    on the map without being registered. *)
Lemma detachAll_off (a : Adapter) (h : nat) (m : Marker) :
  noOrphans a ->
  detachAll (markersRef a) (markers a) !! h = Some m -> onMap m = false.
Proof.
  intros Horph Hm.
  destruct (detachAll_lookup (markersRef a) (markers a) h) as [[Hsame Hno] | [Hnull _]].
  - rewrite Hsame in Hm. destruct (onMap m) eqn:Hon; [| reflexivity].
    destruct (Horph h m Hm Hon) as [k Hk]. exfalso. exact (Hno k Hk).
  - rewrite Hnull in Hm. destruct (markers a !! h); [| discriminate].
    injection Hm as <-. reflexivity.
Qed.

Lemma drawn_registry (a : Adapter) (schools : list School) (i : nat) (school : School) :
  NoDup (id <$> schools) -> schools !! i = Some school ->
  snd (foldl addMarker (detachAll (markersRef a) (markers a), ∅) schools) !! id school
  = Some (length (markers a) + i).
Proof.
  intros Hnodup Hi.
  destruct (addMarker_registry (detachAll (markersRef a) (markers a)) ∅ schools (id school))
    as [[_ Hnot] | (i' & s' & Hi' & Hid & _ & ->)].
  - exfalso. apply Hnot, list_elem_of_fmap. exists school.
    split; [reflexivity |]. eapply list_elem_of_lookup_2. exact Hi.
  - rewrite detachAll_length. do 2 f_equal.
    apply (NoDup_lookup (id <$> schools) i' i (id school) Hnodup).
    + rewrite list_lookup_fmap, Hi'. simpl. congruence.
    + rewrite list_lookup_fmap, Hi. reflexivity.
Qed.

Lemma redraw_on_map (schools : list School) (a : Adapter) (g : GoogleMap) :
  map a = Some g -> schools <> [] -> noOrphans a -> NoDup (id <$> schools) ->
  forall h m,
    markers (markersEffect schools a) !! h = Some m -> onMap m = true ->
    exists i school,
      schools !! i = Some school /\ h = length (markers a) + i /\
      m = newMarker school /\
      markersRef (markersEffect schools a) !! id school = Some h.
Proof.
  intros Hmap Hne Horph Hnodup h m.
  rewrite (markersEffect_unfold schools a g Hmap Hne). cbn [markers markersRef].
  rewrite addMarker_objs.
  pose proof (detachAll_length (markersRef a) (markers a)) as Hlen.
  intros Hm Hon.
  destruct (decide (h < length (markers a))) as [Hlt | Hge].
  - rewrite lookup_app_l in Hm by lia.
    rewrite (detachAll_off a h m Horph Hm) in Hon. discriminate.
  - rewrite lookup_app_r in Hm by lia. rewrite Hlen in Hm.
    rewrite list_lookup_fmap in Hm.
    destruct (schools !! (h - length (markers a))) as [school|] eqn:Hi;
      [| discriminate].
    injection Hm as <-. exists (h - length (markers a)), school.
    split; [exact Hi |]. split; [lia |]. split; [reflexivity |].
    rewrite (drawn_registry a schools _ school Hnodup Hi). f_equal. lia.
Qed.

(** X14: after a redraw with one entity per id, the markers on the map are
    exactly the fresh ones: each is the marker of one school of the new
    collection, registered under that school's id, and the map carries as
    many markers as the collection has schools. *)
Theorem redraw_leaves_one_marker_per_school
        (schools : list School) (a : Adapter) (g : GoogleMap) :
  map a = Some g -> schools <> [] -> noOrphans a -> NoDup (id <$> schools) ->
  let a' := markersEffect schools a in
  (forall h m,
     markers a' !! h = Some m -> onMap m = true ->
     exists i school,
       schools !! i = Some school /\ h = length (markers a) + i /\
       m = newMarker school /\ markersRef a' !! id school = Some h) /\
  length (List.filter onMap (markers a')) = length schools.
Proof.
  intros Hmap Hne Horph Hnodup a'. subst a'.
  split; [apply (redraw_on_map schools a g); assumption |].
  rewrite (markersEffect_unfold schools a g Hmap Hne). cbn [markers].
  rewrite addMarker_objs, List.filter_app, filter_onMap_new, length_app, length_fmap.
  rewrite filter_onMap_nil; [reflexivity |].
  intros h m Hm. apply (detachAll_off a h m Horph Hm).
Qed.

Lemma redraw_leaves_one_marker_per_school_witness :
  length (List.filter onMap
            (markers (markersEffect [Samples.lincolnMiddle] Samples.drawn))) = 1.
Proof.
  refine (proj2 (redraw_leaves_one_marker_per_school
                   [Samples.lincolnMiddle] Samples.drawn
                   {| center := MAP_CENTER; zoom := MAP_ZOOM |} _ _ _ _));
    [reflexivity | discriminate | | repeat constructor; apply not_elem_of_nil].
  intros h m Hm Hon. destruct h as [|[|h]]; simpl in Hm; [| | discriminate].
  - exists (id Samples.lincoln). reflexivity.
  - exists (id Samples.roosevelt). reflexivity.
Defined.

(** *** Invariants of the mounted adapter *)

Lemma step_keeps_markers (a : Adapter) (e : Step) :
  (forall schools, e <> Draw schools) ->
  markers (step a e) = markers a /\ markersRef (step a e) = markersRef a.
Proof.
  intros Hnd. destruct e as [| schools | sel | h | h]; simpl.
  - unfold initEffect. destruct (map a); split; reflexivity.
  - exfalso. exact (Hnd schools eq_refl).
  - unfold selectionEffect. destruct (map a); [| split; reflexivity].
    destruct sel as [school|]; [| split; reflexivity].
    destruct (markersRef a !! id school) as [h|]; [| split; reflexivity].
    unfold click. simpl. destruct (markers a !! h); split; reflexivity.
  - unfold mouseover. destruct (markers a !! h); split; reflexivity.
  - unfold click. destruct (markers a !! h); split; reflexivity.
Qed.

Lemma fmap_is_Some_window (f : InfoWindow -> InfoWindow) (w : option InfoWindow) :
  is_Some w -> is_Some (f <$> w).
Proof. intros [x ->]. simpl. eauto. Qed.

Lemma step_keeps_window (a : Adapter) (e : Step) :
  (is_Some (map a) -> is_Some (infoWindowRef a)) ->
  is_Some (map (step a e)) -> is_Some (infoWindowRef (step a e)).
Proof.
  intros Hinv. destruct e as [| schools | sel | h | h]; simpl.
  - unfold initEffect. destruct (map a) as [g|] eqn:Hmap; simpl; [| eauto].
    intros _. apply Hinv. eauto.
  - unfold markersEffect. destruct (map a) as [g|] eqn:Hmap.
    + intros _. assert (Hw : is_Some (infoWindowRef a)) by (apply Hinv; eauto).
      destruct schools as [|s l]; [exact Hw |].
      destruct (foldl addMarker _ (s :: l)). exact Hw.
    + rewrite Hmap. intros [? ?]. discriminate.
  - unfold selectionEffect. destruct (map a) as [g|] eqn:Hmap.
    + intros _. assert (Hw : is_Some (infoWindowRef a)) by (apply Hinv; eauto).
      destruct sel as [school|]; [| exact Hw].
      destruct (markersRef a !! id school) as [h|]; [| exact Hw].
      unfold click. simpl. destruct (markers a !! h); simpl; [| exact Hw].
      apply fmap_is_Some_window. exact Hw.
    + rewrite Hmap. intros [? ?]. discriminate.
  - unfold mouseover. destruct (markers a !! h); simpl; [| exact Hinv].
    intros Hm. apply fmap_is_Some_window, Hinv, Hm.
  - unfold click. destruct (markers a !! h); simpl; [| exact Hinv].
    intros Hm. apply fmap_is_Some_window, Hinv, Hm.
Qed.

Lemma draw_keeps_invariants (a : Adapter) (schools : list School) :
  NoDup (id <$> schools) -> noOrphans a -> registryFaithful a ->
  noOrphans (markersEffect schools a) /\ registryFaithful (markersEffect schools a).
Proof.
  intros Hnodup Horph Hfaith. destruct (map a) as [g|] eqn:Hmap;
    [| unfold markersEffect; rewrite Hmap; split; assumption].
  destruct schools as [|s l];
    [unfold markersEffect; rewrite Hmap; split; assumption |].
  split.
  - intros h m Hm Hon.
    destruct (redraw_on_map (s :: l) a g Hmap ltac:(discriminate) Horph Hnodup h m Hm Hon)
      as (i & school & _ & _ & _ & Hreg).
    exists (id school). exact Hreg.
  - rewrite (markersEffect_unfold (s :: l) a g Hmap) by discriminate.
    intros k h. cbn [markers markersRef]. rewrite addMarker_objs.
    destruct (addMarker_registry (detachAll (markersRef a) (markers a)) ∅ (s :: l) k)
      as [[-> _] | (i & school & Hi & Hid & _ & ->)].
    + rewrite lookup_empty. discriminate.
    + intros [= <-]. exists (newMarker school).
      rewrite lookup_app_r, Nat.add_sub_swap, Nat.sub_diag by lia.
      rewrite list_lookup_fmap. simpl (0 + i). rewrite Hi. repeat split. exact Hid.
Qed.

Lemma step_keeps_invariants (a : Adapter) (e : Step) :
  distinctIds e -> noOrphans a -> registryFaithful a ->
  noOrphans (step a e) /\ registryFaithful (step a e).
Proof.
  intros Hd Horph Hfaith.
  assert (Hcase : (exists schools, e = Draw schools) \/ forall schools, e <> Draw schools).
  { destruct e; [right | left | right ..]; eauto; discriminate. }
  destruct Hcase as [[schools ->] | Hnd].
  - apply draw_keeps_invariants; assumption.
  - destruct (step_keeps_markers a e Hnd) as [Hm Hr].
    unfold noOrphans, registryFaithful. rewrite Hm, Hr. split; assumption.
Qed.

(** X15: whatever the page does (effects and listeners in any order, each
    collection drawn having one entity per id), every marker on the map is
    in the registry, every registry entry names a marker that is on the map
    and carries a school with that id, and the popup exists whenever the
    map does. *)
Theorem adapter_invariants (es : list Step) :
  Forall distinctIds es ->
  noOrphans (steps es) /\ registryFaithful (steps es) /\ registryValid (steps es) /\
  (is_Some (map (steps es)) -> is_Some (infoWindowRef (steps es))).
Proof.
  intros Hdist.
  assert (H : noOrphans (steps es) /\ registryFaithful (steps es) /\
              (is_Some (map (steps es)) -> is_Some (infoWindowRef (steps es)))).
  { unfold steps. induction es as [|e es IH] using rev_ind.
    - cbn [foldl]. repeat split.
      + intros h m Hm. destruct h; discriminate.
      + intros k h Hk. pose proof (registryValid_unmounted k h Hk) as Hlt.
        simpl in Hlt. lia.
      + intros [? ?]. discriminate.
    - apply Forall_app in Hdist as [Hes He]. inversion He as [|? ? Hde _]; subst.
      destruct (IH Hes) as (Horph & Hfaith & Hwin). rewrite foldl_app. cbn [foldl].
      destruct (step_keeps_invariants _ e Hde Horph Hfaith) as [Ho Hf].
      split; [exact Ho | split; [exact Hf |]].
      apply step_keeps_window. exact Hwin. }
  destruct H as (Horph & Hfaith & Hwin). repeat split; try assumption.
  intros k h Hk. destruct (Hfaith k h Hk) as (m & Hm & _).
  eapply lookup_lt_Some. exact Hm.
Qed.

Lemma adapter_invariants_witness :
  noOrphans (steps [Init; Draw [Samples.lincoln; Samples.roosevelt];
                    Select (Some Samples.roosevelt); Hover 0;
                    Draw [Samples.lincolnMiddle]]).
Proof.
  apply adapter_invariants.
  repeat constructor; simpl; try apply not_elem_of_nil.
  intros Hin. apply list_elem_of_singleton in Hin. discriminate.
Defined.

(** *** Two entities under one id *)

Lemma step_keeps_unregistered (a : Adapter) (e : Step) (h : nat) (m : Marker) :
  markers a !! h = Some m ->
  (forall k, markersRef a !! k <> Some h) ->
  markers (step a e) !! h = Some m /\
  (forall k, markersRef (step a e) !! k <> Some h).
Proof.
  intros Hm Hno.
  assert (Hcase : (exists schools, e = Draw schools) \/ forall schools, e <> Draw schools).
  { destruct e; [right | left | right ..]; eauto; discriminate. }
  destruct Hcase as [[schools ->] | Hnd];
    [| destruct (step_keeps_markers a e Hnd) as [-> ->]; split; assumption].
  simpl. destruct (map a) as [g|] eqn:Hmap;
    [| unfold markersEffect; rewrite Hmap; split; assumption].
  destruct schools as [|s l];
    [unfold markersEffect; rewrite Hmap; split; assumption |].
  rewrite (markersEffect_unfold (s :: l) a g Hmap) by discriminate.
  cbn [markers markersRef]. rewrite addMarker_objs.
  pose proof (lookup_lt_Some _ _ _ Hm) as Hlt.
  pose proof (detachAll_length (markersRef a) (markers a)) as Hlen. split.
  - rewrite lookup_app_l by lia.
    destruct (detachAll_lookup (markersRef a) (markers a) h) as [[-> _] | [_ [k Hk]]];
      [exact Hm | exfalso; exact (Hno k Hk)].
  - intros k Hk.
    destruct (addMarker_registry (detachAll (markersRef a) (markers a)) ∅ (s :: l) k)
      as [[Hr _] | (i & school & _ & _ & _ & Hr)]; rewrite Hr in Hk.
    + rewrite lookup_empty in Hk. discriminate.
    + injection Hk as Hk. lia.
Qed.

(** X16: the registry keeps one marker per id.  When a collection holds
    two entities with the same id, the marker of the earlier one is put on
    the map without being registered, and nothing the adapter does later
    (redraws included) takes it off the map. *)
Theorem shared_id_leaves_marker_on_map
        (a : Adapter) (g : GoogleMap) (schools : list School)
        (i j : nat) (first second : School) (es : list Step) :
  map a = Some g ->
  schools !! i = Some first -> schools !! j = Some second ->
  i < j -> id first = id second ->
  let h := length (markers a) + i in
  let a' := foldl step (markersEffect schools a) es in
  markers a' !! h = Some (newMarker first) /\
  onMap (newMarker first) = true /\
  forall k, markersRef a' !! k <> Some h.
Proof.
  intros Hmap Hi Hj Hlt Hid h a'. subst h a'.
  assert (Hne : schools <> []) by (intros ->; discriminate).
  assert (H0 : markers (markersEffect schools a) !! (length (markers a) + i)
               = Some (newMarker first) /\
               forall k, markersRef (markersEffect schools a) !! k
                         <> Some (length (markers a) + i)).
  { rewrite (markersEffect_unfold schools a g Hmap Hne). cbn [markers markersRef].
    rewrite addMarker_objs.
    pose proof (detachAll_length (markersRef a) (markers a)) as Hlen. split.
    - rewrite lookup_app_r by lia.
      replace (length (markers a) + i - length (detachAll (markersRef a) (markers a)))
        with i by lia.
      rewrite list_lookup_fmap, Hi. reflexivity.
    - intros k Hk.
      destruct (addMarker_registry (detachAll (markersRef a) (markers a)) ∅ schools k)
        as [[Hr _] | (i' & school & Hi' & Hk' & Hlast & Hr)]; rewrite Hr in Hk.
      + rewrite lookup_empty in Hk. discriminate.
      + injection Hk as Hk. assert (i' = i) as -> by lia.
        apply (Hlast j second Hlt Hj). congruence. }
  assert (H : markers (foldl step (markersEffect schools a) es)
                !! (length (markers a) + i) = Some (newMarker first) /\
              forall k, markersRef (foldl step (markersEffect schools a) es) !! k
                        <> Some (length (markers a) + i)).
  { induction es as [|e es IH] using rev_ind; [exact H0 |].
    rewrite foldl_app. cbn [foldl]. destruct IH as [Hm Hno].
    apply step_keeps_unregistered; assumption. }
  destruct H as [Hm Hno]. repeat split; assumption.
Qed.

Lemma shared_id_leaves_marker_on_map_witness :
  let a' := foldl step (markersEffect [Samples.lincoln; MoreSamples.twin] Samples.drawn)
                  [Draw [Samples.roosevelt]; Draw [Samples.lincolnMiddle]] in
  markers a' !! (2 + 0) = Some (newMarker Samples.lincoln) /\
  onMap (newMarker Samples.lincoln) = true /\
  forall k, markersRef a' !! k <> Some (2 + 0).
Proof.
  apply (shared_id_leaves_marker_on_map Samples.drawn
           {| center := MAP_CENTER; zoom := MAP_ZOOM |}
           [Samples.lincoln; MoreSamples.twin] 0 1 Samples.lincoln MoreSamples.twin);
    [reflexivity | reflexivity | reflexivity | lia | reflexivity].
Defined.

(** *** The popup *)

(** X17: there is one popup: opening it on a marker replaces whatever it
    showed, so after two hovers or two clicks it shows the later marker
    only; a hover and a click on a marker open the same content, but only
    the click reports the school to the controller, and neither moves the
    map or touches the markers. *)
Theorem popup_shows_last_marker (a : Adapter) (h1 h2 : nat) (m2 : Marker) :
  markers a !! h2 = Some m2 ->
  mouseover h2 (mouseover h1 a) = mouseover h2 a /\
  infoWindowRef (click h2 (click h1 a)) = infoWindowRef (click h2 a) /\
  infoWindowRef (click h2 a) = infoWindowRef (mouseover h2 a) /\
  infoWindowRef (mouseover h2 a) =
    (fun _ => {| content := Some (listenerContent m2); anchor := Some h2 |})
      <$> infoWindowRef a /\
  reported (mouseover h2 a) = reported a /\
  reported (click h2 a) = Some (listenerSchool m2) /\
  map (click h2 a) = map a /\ map (mouseover h2 a) = map a /\
  markers (click h2 a) = markers a /\ markersRef (click h2 a) = markersRef a.
Proof.
  intros Hm. unfold mouseover, click.
  destruct (markers a !! h1) as [m1|] eqn:Hm1; simpl; rewrite Hm; simpl;
    repeat split; destruct (infoWindowRef a); reflexivity.
Qed.

Lemma popup_shows_last_marker_witness :
  mouseover 1 (mouseover 0 Samples.drawn) = mouseover 1 Samples.drawn.
Proof.
  apply (popup_shows_last_marker Samples.drawn 0 1 (newMarker Samples.roosevelt)).
  reflexivity.
Defined.

(** *** Drawing, then selecting *)

(** X18: after the collection has been drawn (one entity per id), selecting
    one of its schools centres the map on that school, sets zoom 15, opens
    the popup on that school's own marker with that school's content, and
    reports that school; selecting a school whose id is not in the drawn
    collection does nothing at all. *)
Theorem select_after_draw
        (a : Adapter) (g : GoogleMap) (schools : list School) :
  map a = Some g -> schools <> [] -> NoDup (id <$> schools) ->
  let drawn := markersEffect schools a in
  (forall i school,
     schools !! i = Some school ->
     let a' := selectionEffect (Some school) drawn in
     map a' = Some {| center := (latitude school, longitude school); zoom := 15 |} /\
     infoWindowRef a' =
       (fun _ => {| content := Some (contentString school);
                    anchor := Some (length (markers a) + i) |})
         <$> infoWindowRef a /\
     reported a' = Some school /\ markers a' = markers drawn) /\
  (forall stale,
     id stale ∉ id <$> schools ->
     selectionEffect (Some stale) drawn = drawn).
Proof.
  intros Hmap Hne Hnodup drawn. subst drawn.
  rewrite (markersEffect_unfold schools a g Hmap Hne).
  pose proof (detachAll_length (markersRef a) (markers a)) as Hlen. split.
  - intros i school Hi a'. subst a'. unfold selectionEffect. cbn [map markersRef].
    rewrite Hmap, (drawn_registry a schools i school Hnodup Hi).
    unfold click. cbn [markers setZoom panTo]. rewrite addMarker_objs.
    rewrite lookup_app_r by lia.
    replace (length (markers a) + i - length (detachAll (markersRef a) (markers a)))
      with i by lia.
    rewrite list_lookup_fmap, Hi. simpl.
    repeat split.
  - intros stale Hstale. unfold selectionEffect. cbn [map markersRef]. rewrite Hmap.
    destruct (addMarker_registry (detachAll (markersRef a) (markers a)) ∅ schools
                (id stale)) as [[-> _] | (i & school & Hi & Hid & _)].
    + rewrite lookup_empty. reflexivity.
    + exfalso. apply Hstale, list_elem_of_fmap. exists school.
      split; [congruence |]. eapply list_elem_of_lookup_2. exact Hi.
Qed.

Lemma select_after_draw_witness :
  let a' := selectionEffect (Some Samples.roosevelt) Samples.drawn in
  map a' = Some {| center := (latitude Samples.roosevelt, longitude Samples.roosevelt);
                   zoom := 15 |} /\
  reported a' = Some Samples.roosevelt.
Proof.
  destruct (select_after_draw (initEffect unmounted)
              {| center := MAP_CENTER; zoom := MAP_ZOOM |}
              [Samples.lincoln; Samples.roosevelt])
    as [Hsel _].
  - reflexivity.
  - discriminate.
  - repeat constructor; simpl; try apply not_elem_of_nil.
    intros Hin. apply list_elem_of_singleton in Hin. discriminate.
  - destruct (Hsel 1 Samples.roosevelt eq_refl) as (Hmap & _ & Hrep & _).
    split; [exact Hmap | exact Hrep].
Defined.

End MapAdapterMore.

(** ** Which cells [parseFloat] accepts *)

Section CoordinateClaims.
Import Mapper CSV_COLUMN_NAMES Cells.

Lemma isNaN_decimalValue (neg : bool) (di df : list N) (ex : Z) :
  isNaN (decimalValue neg di df ex) = false.
Proof.
  unfold decimalValue. destruct (stripTrailingZeros (di ++ df)) as [ds k].
  destruct (digitsToN ds =? 0)%N; [reflexivity |].
  destruct (overflows _ _); reflexivity.
Qed.

Lemma parseUnsigned_unfold (neg : bool) (s : string) :
  parseUnsigned neg s =
  if startsWith s "Infinity" then Infinity neg
  else
    let '(di, r1) := takeDigits s in
    match r1 with
    | String c r2 =>
        if Ascii.eqb c "."%char then
          let '(df, r3) := takeDigits r2 in
          match di, df with
          | [], [] => NaN
          | _, _ => decimalValue neg di df (parseExponent r3)
          end
        else
          match di with
          | [] => NaN
          | _ => decimalValue neg di [] (parseExponent r1)
          end
    | EmptyString =>
        match di with
        | [] => NaN
        | _ => decimalValue neg di [] (parseExponent r1)
        end
    end.
Proof.
  unfold parseUnsigned. destruct (startsWith s "Infinity"); [reflexivity |].
  destruct (takeDigits s) as [di r1].
  destruct r1 as [|[[] [] [] [] [] [] [] []] r2]; reflexivity.
Qed.

Lemma parseFloat_unfold (v : option string) :
  parseFloat v =
  match trimStart (ToString v) with
  | EmptyString => parseUnsigned false EmptyString
  | String c r =>
      if Ascii.eqb c "+"%char then parseUnsigned false r
      else if Ascii.eqb c "-"%char then parseUnsigned true r
      else parseUnsigned false (String c r)
  end.
Proof.
  unfold parseFloat. destruct (trimStart (ToString v)) as [|c r]; [reflexivity |].
  destruct c as [[] [] [] [] [] [] [] []]; reflexivity.
Qed.

Lemma takeDigits_cons (c : ascii) (r : string) :
  takeDigits (String c r) =
  if isDecimalDigit c
  then (N_of_ascii c - 48 :: fst (takeDigits r), snd (takeDigits r))%N
  else ([], String c r).
Proof.
  simpl. unfold digitValue, isDecimalDigit.
  destruct ((48 <=? N_of_ascii c) && (N_of_ascii c <=? 57))%N; [| reflexivity].
  destruct (takeDigits r). reflexivity.
Qed.

Lemma dot_is_no_digit (c : ascii) :
  Ascii.eqb c "."%char = true -> isDecimalDigit c = false.
Proof. intros H. apply Ascii.eqb_eq in H. subst c. reflexivity. Qed.

(** [parseUnsigned] gives NaN exactly when no number is ahead. *)
Lemma parseUnsigned_NaN (neg : bool) (s : string) :
  isNaN (parseUnsigned neg s) = negb (unsignedNumberAhead s).
Proof.
  rewrite parseUnsigned_unfold. unfold unsignedNumberAhead.
  destruct (startsWith s "Infinity"); [reflexivity |]. simpl orb.
  destruct s as [|c r]; [reflexivity |].
  rewrite takeDigits_cons. unfold beginsWithDigit at 1.
  destruct (isDecimalDigit c) eqn:Hc.
  - simpl. destruct (snd (takeDigits r)) as [|c1 r2]; [apply isNaN_decimalValue |].
    destruct (Ascii.eqb c1 "."); [| apply isNaN_decimalValue].
    destruct (takeDigits r2). apply isNaN_decimalValue.
  - simpl. destruct (Ascii.eqb c ".") eqn:Hdot; [| reflexivity].
    destruct r as [|c2 r2]; [reflexivity |].
    rewrite takeDigits_cons. unfold beginsWithDigit.
    destruct (isDecimalDigit c2); [| reflexivity].
    simpl. apply isNaN_decimalValue.
Qed.

(** [parseFloat] gives NaN exactly for the cells that are missing or do not
    begin with a number. *)
Lemma parseFloat_NaN (cell : option string) :
  isNaN (parseFloat cell) = negb (beginsWithNumber cell).
Proof.
  destruct cell as [s|]; [| reflexivity].
  rewrite parseFloat_unfold. simpl ToString. unfold beginsWithNumber.
  destruct (trimStart s) as [|c r]; [reflexivity |].
  destruct (Ascii.eqb c "+"); [apply parseUnsigned_NaN |].
  destruct (Ascii.eqb c "-"); apply parseUnsigned_NaN.
Qed.

Lemma invalidLatLng_coordinateMissing (row : Row) :
  invalidLatLng row = coordinateMissing row.
Proof. unfold invalidLatLng, coordinateMissing. rewrite !parseFloat_NaN. reflexivity. Qed.

Lemma excluded_skipped (row : Row) : excluded row = skipped row.
Proof. unfold excluded, skipped. rewrite invalidLatLng_coordinateMissing. reflexivity. Qed.

Lemma ofNat_reads_back (n : nat) :
  Nat.of_uint <$> NilZero.uint_of_string (ofNat n) = Some n.
Proof.
  unfold ofNat. rewrite NilZero.usu.
  - simpl. rewrite DecimalNat.Unsigned.of_to. reflexivity.
  - intros Hk. pose proof (DecimalNat.Unsigned.of_to n) as Hof.
    rewrite Hk in Hof. simpl in Hof. subst n. discriminate.
Qed.

(** C2 fails as stated: a latitude cell such as 12abc, or 40.7 N, is not a
    number, yet the row is kept, with the number its cell begins with, and
    no warning is emitted; nothing is taken off the length. *)
Lemma fetchSchoolData_keeps_numeric_prefix :
  exists kept kept',
    fetchSchoolData (PapaComplete [prefixed; withUnit]) = ([], Resolved [kept; kept']) /\
    prefixed !! LATITUDE = Some "12abc" /\ latitude kept = Finite false 12 0 /\
    withUnit !! LATITUDE = Some "40.7 N" /\ latitude kept' = Finite false 407 (-1).
Proof. eexists _, _. vm_compute. repeat split. Qed.

(** C2, amended: for every parsed sheet, every row whose latitude or
    longitude cell is missing, or does not begin (after leading white space
    and an optional sign) with a number or with Infinity, is skipped, and the
    console gets for it the warning that names its sheet line, index + 2, in
    decimal; a row whose two cells begin with a number is not skipped for
    its coordinates, whatever follows the number: it is kept when its status
    is recognized; every entity of the result comes from such a row; and
    the length of the result is the number of rows minus the number of rows
    skipped, for a coordinate or for the status. *)
Theorem fetchSchoolData_skips_unparsed_coordinates (data : list Row) :
  exists lines result,
    fetchSchoolData (PapaComplete data) = (lines, Resolved result) /\
    (forall index row,
       data !! index = Some row ->
       beginsWithNumber (row !! LATITUDE) = false \/
       beginsWithNumber (row !! LONGITUDE) = false ->
       snd (mapRow row index) = None /\
       exists numeral,
         fst (mapRow row index) =
           ["Skipping row " ++ numeral ++ " due to invalid latitude/longitude."] /\
         Nat.of_uint <$> NilZero.uint_of_string numeral = Some (index + 2) /\
         ("Skipping row " ++ numeral ++ " due to invalid latitude/longitude.") ∈ lines) /\
    (forall index row,
       data !! index = Some row ->
       beginsWithNumber (row !! LATITUDE) = true ->
       beginsWithNumber (row !! LONGITUDE) = true ->
       unrecognizedStatus row = false ->
       exists s, mapRow row index = ([], Some s) /\ s ∈ result /\
                 latitude s = parseFloat (row !! LATITUDE) /\
                 longitude s = parseFloat (row !! LONGITUDE)) /\
    (forall s, s ∈ result ->
       exists index row,
         data !! index = Some row /\ snd (mapRow row index) = Some s /\
         beginsWithNumber (row !! LATITUDE) = true /\
         beginsWithNumber (row !! LONGITUDE) = true) /\
    length result = length data - length (List.filter skipped data) /\
    length (List.filter skipped data) =
      length (List.filter coordinateMissing data) +
      length (List.filter (fun row => negb (coordinateMissing row) &&
                                      unrecognizedStatus row) data).
Proof.
  exists (fst (complete data)), (snd (complete data)). split.
  { simpl. destruct (complete data); reflexivity. }
  split; [| split; [| split; [| split]]].
  - intros index row Hrow Hbad.
    assert (Hll : invalidLatLng row = true).
    { rewrite invalidLatLng_coordinateMissing. unfold coordinateMissing.
      destruct Hbad as [-> | ->]; simpl; [reflexivity | apply orb_true_r]. }
    pose proof (mapRow_invalidLatLng row index Hll) as Hm. rewrite Hm.
    split; [reflexivity |]. exists (ofNat (index + 2)).
    split; [reflexivity |]. split; [apply ofNat_reads_back |].
    apply (complete_warning data index row); [assumption |].
    rewrite Hm. apply list_elem_of_here.
  - intros index row Hrow Hlat Hlng Hst.
    assert (Hex : excluded row = false).
    { rewrite excluded_skipped. unfold skipped, coordinateMissing.
      rewrite Hlat, Hlng, Hst. reflexivity. }
    destruct (mapRow row index) as [w [s|]] eqn:Hm.
    + pose proof (mapRow_Some _ _ _ _ Hm) as (-> & _ & _ & Ha & Hb & _).
      exists s. split; [reflexivity |]. split; [| split; assumption].
      apply complete_elem. exists index, row. rewrite Hm. auto.
    + pose proof (proj1 (mapRow_None row index)) as Hnone.
      rewrite Hm in Hnone. specialize (Hnone eq_refl). congruence.
  - intros s Hs. apply complete_elem in Hs as (index & row & Hrow & Hmap).
    exists index, row. destruct (mapRow row index) as [w o] eqn:Hm.
    simpl in Hmap. subst o.
    pose proof (mapRow_Some _ _ _ _ Hm) as (_ & Hll & _).
    rewrite invalidLatLng_coordinateMissing in Hll. unfold coordinateMissing in Hll.
    apply orb_false_elim in Hll as [Ha Hb].
    apply negb_false_iff in Ha, Hb. simpl. auto.
  - pose proof (complete_length data) as Hlen.
    rewrite (filter_ext excluded skipped excluded_skipped) in Hlen. lia.
  - apply filter_orb_length.
Qed.

End CoordinateClaims.

(** ** Loads in the order of a run *)

Section RunClaims.
Import Mapper App Runs.













End RunClaims.

(** ** A load that reaches the parser *)

Section LoadMore.
Import Mapper App.



End LoadMore.
